(** * Agent messaging over a publish/subscribe bus

    A shallow embedding of [agent_messaging.py]: the [Message] record and
    its JSON wire form, the per-agent inbox processor
    ([AgentMessageQueue]), the [MessageRouter] and the [MessageViewer],
    together with the properties stated for them.

    Conventions of the embedding.
    - A Python [str] is the list of its code points, a [bytes] object the
      list of its octets; both are lists of [N].
    - Values that come out of [json.loads] are dynamically typed
      ([pyval]); a [Message] holds such values, because
      [Message.from_dict] passes the dict on as keyword arguments and
      checks no types.
    - Effects (the broker, the logger, standard output, the clock) live in
      a [World] that every coroutine threads; exceptions are an outcome
      next to the state, so that what was mutated before a [raise] stays
      mutated.
    - Floating point is not modelled: a JSON real is carried by its
      literal, and the clock hands out the text of its readings. *)

From Stdlib Require Import String Ascii DecimalString.
From Stdlib Require Import List NArith ZArith Lia Bool.
Import ListNotations.
Local Open Scope N_scope.
Set Warnings "-register-all".

(* ================================================================== *)
(** * Python text *)

Module Py.

Definition str := list N.
Definition bytes := list N.

(** A literal of the source, as code points. *)
Definition lit (s : string) : str := map N_of_ascii (list_ascii_of_string s).
Arguments lit s%_string.

Fixpoint str_eqb (a b : str) : bool :=
  match a, b with
  | [], [] => true
  | x :: a', y :: b' => (x =? y) && str_eqb a' b'
  | _, _ => false
  end.

(** [s.startswith(p)] *)
Fixpoint startswith (p s : str) : bool :=
  match p, s with
  | [], _ => true
  | x :: p', y :: s' => (x =? y) && startswith p' s'
  | _ :: _, [] => false
  end.

(** [s.replace(old, new)] for a non-empty [old]: every occurrence, found
    left to right without overlap, is replaced.  The recursion is on a
    count of the characters still to be read. *)
Fixpoint replace_from (fuel : nat) (old new s : str) : str :=
  match fuel with
  | O => s
  | S fuel' =>
      match s with
      | [] => []
      | c :: t =>
          if startswith old s
          then new ++ replace_from fuel' old new (skipn (length old) s)
          else c :: replace_from fuel' old new t
      end
  end.

Definition replace (old new s : str) : str :=
  replace_from (length s) old new s.

(** [s[:n]] *)
Definition slice_to (n : nat) (s : str) : str := firstn n s.

(** ** UTF-8, as [bytes.decode()] and [str.encode()] use it (strict) *)

Definition is_cont (b : N) : bool := (0x80 <=? b) && (b <? 0xC0).

Definition is_surrogate (c : N) : bool := (0xD800 <=? c) && (c <=? 0xDFFF).

Fixpoint utf8_decode (b : bytes) : option str :=
  match b with
  | [] => Some []
  | b0 :: t =>
      if b0 <? 0x80 then option_map (cons b0) (utf8_decode t)
      else if b0 <? 0xC2 then None
      else if b0 <? 0xE0 then
        match t with
        | b1 :: t1 =>
            if is_cont b1
            then option_map (cons ((b0 - 0xC0) * 64 + (b1 - 0x80)))
                            (utf8_decode t1)
            else None
        | _ => None
        end
      else if b0 <? 0xF0 then
        match t with
        | b1 :: b2 :: t2 =>
            if is_cont b1 && is_cont b2
               && (negb (b0 =? 0xE0) || (0xA0 <=? b1))
               && (negb (b0 =? 0xED) || (b1 <? 0xA0))
            then option_map
                   (cons ((b0 - 0xE0) * 4096 + (b1 - 0x80) * 64 + (b2 - 0x80)))
                   (utf8_decode t2)
            else None
        | _ => None
        end
      else if b0 <? 0xF5 then
        match t with
        | b1 :: b2 :: b3 :: t3 =>
            if is_cont b1 && is_cont b2 && is_cont b3
               && (negb (b0 =? 0xF0) || (0x90 <=? b1))
               && (negb (b0 =? 0xF4) || (b1 <? 0x90))
            then option_map
                   (cons ((b0 - 0xF0) * 262144 + (b1 - 0x80) * 4096
                          + (b2 - 0x80) * 64 + (b3 - 0x80)))
                   (utf8_decode t3)
            else None
        | _ => None
        end
      else None
  end.

Definition utf8_encode_char (c : N) : option bytes :=
  if c <? 0x80 then Some [c]
  else if c <? 0x800 then Some [0xC0 + c / 64; 0x80 + c mod 64]
  else if c <? 0x10000 then
    if is_surrogate c then None
    else Some [0xE0 + c / 4096; 0x80 + (c / 64) mod 64; 0x80 + c mod 64]
  else if c <? 0x110000 then
    Some [0xF0 + c / 262144; 0x80 + (c / 4096) mod 64;
          0x80 + (c / 64) mod 64; 0x80 + c mod 64]
  else None.

Fixpoint utf8_encode (s : str) : option bytes :=
  match s with
  | [] => Some []
  | c :: t =>
      match utf8_encode_char c, utf8_encode t with
      | Some b, Some r => Some (b ++ r)
      | _, _ => None
      end
  end.

End Py.

Import Py.

(* ================================================================== *)
(** * Dynamically typed values and exceptions *)

(** What [json.loads] can return, which is also what a field of a decoded
    [Message] can hold.  A dict keeps its insertion order. *)
Inductive pyval : Type :=
| PNone
| PBool (b : bool)
| PInt (z : Z)
| PFloat (literal : str)
| PStr (s : str)
| PList (items : list pyval)
| PDict (entries : list (str * pyval)).

(** The exception classes the code can meet. *)
Inductive exn : Type :=
| UnicodeDecodeError
| UnicodeEncodeError
| JSONDecodeError
| TypeError
| AttributeError
| ConnectError         (* [nats.connect] fails or times out *)
| PublishError         (* whatever [nc.publish] raises *)
| HandlerError (tag : N).  (* raised by a user-supplied handler *)

Inductive outcome (A : Type) : Type :=
| Ok (a : A)
| Raise (e : exn).
Arguments Ok {A} a.
Arguments Raise {A} e.

(* ================================================================== *)
(** * The [json] module: [dumps] and [loads] with their defaults *)

Module Json.

(** ** [json.dumps] ([ensure_ascii=True], separators [", "] and [": "]) *)

Definition hex_digit (n : N) : N := if n <? 10 then 48 + n else 87 + n.

(** ['\\u{0:04x}'.format(n)] *)
Definition u_escape (n : N) : str :=
  [92; 117; hex_digit ((n / 4096) mod 16); hex_digit ((n / 256) mod 16);
   hex_digit ((n / 16) mod 16); hex_digit (n mod 16)].

Definition escape_char (c : N) : str :=
  if c =? 34 then [92; 34]
  else if c =? 92 then [92; 92]
  else if c =? 10 then [92; 110]
  else if c =? 13 then [92; 114]
  else if c =? 9 then [92; 116]
  else if c =? 12 then [92; 102]
  else if c =? 8 then [92; 98]
  else if (32 <=? c) && (c <=? 126) then [c]
  else if c <? 0x10000 then u_escape c
  else
    let n := c - 0x10000 in
    u_escape (N.lor 0xD800 (N.land (N.shiftr n 10) 0x3FF))
    ++ u_escape (N.lor 0xDC00 (N.land n 0x3FF)).

Definition escape (s : str) : str := flat_map escape_char s.

(** [py_encode_basestring_ascii] *)
Definition encode_basestring_ascii (s : str) : str :=
  [34] ++ escape s ++ [34].

Fixpoint dumps (v : pyval) : str :=
  match v with
  | PNone => lit "null"
  | PBool true => lit "true"
  | PBool false => lit "false"
  | PInt z => lit (NilZero.string_of_int (Z.to_int z))
  | PFloat x => x
  | PStr s => encode_basestring_ascii s
  | PList l =>
      [91]
      ++ (fix items (l : list pyval) : str :=
            match l with
            | [] => []
            | [x] => dumps x
            | x :: t => dumps x ++ lit ", " ++ items t
            end) l
      ++ [93]
  | PDict d =>
      [123]
      ++ (fix members (d : list (str * pyval)) : str :=
            match d with
            | [] => []
            | [(k, x)] => encode_basestring_ascii k ++ lit ": " ++ dumps x
            | (k, x) :: t =>
                encode_basestring_ascii k ++ lit ": " ++ dumps x
                ++ lit ", " ++ members t
            end) d
      ++ [125]
  end.

(** ** [json.loads] (strict mode) *)

Definition is_ws (c : N) : bool :=
  (c =? 32) || (c =? 9) || (c =? 10) || (c =? 13).

Fixpoint skip_ws (s : str) : str :=
  match s with
  | c :: t => if is_ws c then skip_ws t else s
  | [] => []
  end.

Definition unhex (c : N) : option N :=
  if (48 <=? c) && (c <=? 57) then Some (c - 48)
  else if (97 <=? c) && (c <=? 102) then Some (c - 87)
  else if (65 <=? c) && (c <=? 70) then Some (c - 55)
  else None.

Definition unhex4 (a b c d : N) : option N :=
  match unhex a, unhex b, unhex c, unhex d with
  | Some x, Some y, Some z, Some w => Some (x * 4096 + y * 256 + z * 16 + w)
  | _, _, _, _ => None
  end.

(** The one-character escapes of [BACKSLASH]. *)
Definition backslash (e : N) : option N :=
  if e =? 34 then Some 34
  else if e =? 92 then Some 92
  else if e =? 47 then Some 47
  else if e =? 98 then Some 8
  else if e =? 102 then Some 12
  else if e =? 110 then Some 10
  else if e =? 114 then Some 13
  else if e =? 116 then Some 9
  else None.

Definition push (c : N) (r : option (str * str)) : option (str * str) :=
  match r with
  | Some (s, rest) => Some (c :: s, rest)
  | None => None
  end.

(** [scanstring], entered after the opening quote: the string read and the
    text after the closing quote.  A high surrogate escape directly
    followed by a low surrogate escape is one code point. *)
Fixpoint scanstring (s : str) : option (str * str) :=
  match s with
  | [] => None
  | c :: t =>
      if c =? 34 then Some ([], t)
      else if c =? 92 then
        match t with
        | [] => None
        | e :: t1 =>
            if e =? 117 then
              match t1 with
              | h1 :: h2 :: h3 :: h4 :: t2 =>
                  match unhex4 h1 h2 h3 h4 with
                  | None => None
                  | Some uni =>
                      if (0xD800 <=? uni) && (uni <=? 0xDBFF) then
                        match t2 with
                        | b :: u :: t3 =>
                            if (b =? 92) && (u =? 117) then
                              match t3 with
                              | g1 :: g2 :: g3 :: g4 :: t4 =>
                                  match unhex4 g1 g2 g3 g4 with
                                  | None => None
                                  | Some uni2 =>
                                      if (0xDC00 <=? uni2) && (uni2 <=? 0xDFFF)
                                      then push
                                             (0x10000
                                              + N.lor
                                                  (N.shiftl (uni - 0xD800) 10)
                                                  (uni2 - 0xDC00))
                                             (scanstring t4)
                                      else push uni (scanstring t2)
                                  end
                              | _ => None
                              end
                            else push uni (scanstring t2)
                        | _ => push uni (scanstring t2)
                        end
                      else push uni (scanstring t2)
                  end
              | _ => None
              end
            else
              match backslash e with
              | Some x => push x (scanstring t1)
              | None => None
              end
        end
      else if c <? 32 then None
      else push c (scanstring t)
  end.

Definition is_digit (c : N) : bool := (48 <=? c) && (c <=? 57).

Fixpoint span_digits (s : str) : str * str :=
  match s with
  | c :: t =>
      if is_digit c then let (ds, rest) := span_digits t in (c :: ds, rest)
      else ([], s)
  | [] => ([], [])
  end.

Definition digits_value (ds : str) : Z :=
  fold_left (fun acc d => (acc * 10 + Z.of_N (d - 48))%Z) ds 0%Z.

(** [NUMBER_RE]: an optional minus sign, then a zero or a non-zero digit
    with further digits; optionally a point with one digit or more;
    optionally [e] or [E], an optional sign and one digit or more.
    Without fraction and exponent the match is an [int], otherwise a
    [float], kept as the text matched. *)
Definition scan_number (s : str) : option (pyval * str) :=
  let '(sign, s1) :=
    match s with
    | c :: t => if c =? 45 then ([45], t) else ([], s)
    | [] => ([], s)
    end in
  match s1 with
  | [] => None
  | d :: t =>
      if is_digit d then
        let '(ip, r1) :=
          if d =? 48 then ([d], t)
          else let (ds, r) := span_digits t in (d :: ds, r) in
        let '(frac, r2) :=
          match r1 with
          | p :: q :: r =>
              if (p =? 46) && is_digit q
              then let (ds, r') := span_digits r in (p :: q :: ds, r')
              else ([], r1)
          | _ => ([], r1)
          end in
        let '(ex, r3) :=
          match r2 with
          | e :: x :: r =>
              if (e =? 101) || (e =? 69) then
                if is_digit x
                then let (ds, r') := span_digits r in (e :: x :: ds, r')
                else if (x =? 45) || (x =? 43) then
                  match r with
                  | y :: r' =>
                      if is_digit y
                      then let (ds, r'') := span_digits r' in
                           (e :: x :: y :: ds, r'')
                      else ([], r2)
                  | [] => ([], r2)
                  end
                else ([], r2)
              else ([], r2)
          | _ => ([], r2)
          end in
        match frac, ex with
        | [], [] =>
            Some (PInt (match sign with
                        | [] => digits_value ip
                        | _ :: _ => Z.opp (digits_value ip)
                        end), r3)
        | _, _ => Some (PFloat (sign ++ ip ++ frac ++ ex), r3)
        end
      else None
  end.

(** [s[idx:idx+len(w)] == w], giving the text after the word. *)
Definition word (w : string) (s : str) : option str :=
  if startswith (lit w) s then Some (skipn (length (lit w)) s) else None.
Arguments word w%_string s.

(** Assignment into a dict: a key already present keeps its place. *)
Fixpoint dict_set (d : list (str * pyval)) (k : str) (v : pyval)
  : list (str * pyval) :=
  match d with
  | [] => [(k, v)]
  | (k', v') :: t =>
      if str_eqb k' k then (k', v) :: t else (k', v') :: dict_set t k v
  end.

Definition dict_of_pairs (ps : list (str * pyval)) : list (str * pyval) :=
  fold_left (fun d kv => dict_set d (fst kv) (snd kv)) ps [].

(** [_scan_once] on what is no string, object or array: a literal or a
    number. *)
Definition scan_atom (s : str) : option (pyval * str) :=
  match word "null" s, word "true" s, word "false" s with
  | Some rest, _, _ => Some (PNone, rest)
  | _, Some rest, _ => Some (PBool true, rest)
  | _, _, Some rest => Some (PBool false, rest)
  | None, None, None =>
      match scan_number s with
      | Some r => Some r
      | None =>
          match word "NaN" s, word "Infinity" s, word "-Infinity" s with
          | Some rest, _, _ => Some (PFloat (lit "NaN"), rest)
          | _, Some rest, _ => Some (PFloat (lit "Infinity"), rest)
          | _, _, Some rest => Some (PFloat (lit "-Infinity"), rest)
          | None, None, None => None
          end
      end
  end.

(** [_scan_once], given the readers of an object and of an array (each
    entered after the opening bracket). *)
Definition scan_value (object array : str -> option (pyval * str)) (s : str)
  : option (pyval * str) :=
  match s with
  | [] => None
  | c :: t =>
      if c =? 34 then
        match scanstring t with
        | Some (x, rest) => Some (PStr x, rest)
        | None => None
        end
      else if c =? 123 then object t
      else if c =? 91 then array t
      else scan_atom s
  end.

(** [JSONObject], entered after the brace, given the loop over the
    members (entered at the quote of a key). *)
Definition JSONObject
  (members : str -> list (str * pyval) -> option (list (str * pyval) * str))
  (t : str) : option (pyval * str) :=
  match skip_ws t with
  | c1 :: t1 =>
      if c1 =? 125 then Some (PDict [], t1)
      else
        match members (c1 :: t1) [] with
        | Some (ps, rest) => Some (PDict (dict_of_pairs ps), rest)
        | None => None
        end
  | [] => None
  end.

(** [JSONArray], entered after the bracket, given the loop over the
    elements (entered at the first character of one). *)
Definition JSONArray
  (elements : str -> list pyval -> option (list pyval * str))
  (t : str) : option (pyval * str) :=
  match skip_ws t with
  | c1 :: t1 =>
      if c1 =? 93 then Some (PList [], t1)
      else
        match elements (c1 :: t1) [] with
        | Some (xs, rest) => Some (PList xs, rest)
        | None => None
        end
  | [] => None
  end.

(** One turn of the loop of [JSONObject]: a key, a colon, a value, then
    the closing brace or a comma and the next turn. *)
Definition member (scan_once : str -> option (pyval * str))
  (next : str -> list (str * pyval) -> option (list (str * pyval) * str))
  (s : str) (acc : list (str * pyval))
  : option (list (str * pyval) * str) :=
  match s with
  | q :: t =>
      if q =? 34 then
        match scanstring t with
        | None => None
        | Some (k, r1) =>
            match skip_ws r1 with
            | colon :: r2 =>
                if colon =? 58 then
                  match scan_once (skip_ws r2) with
                  | None => None
                  | Some (v, r3) =>
                      match skip_ws r3 with
                      | d :: r4 =>
                          if d =? 125 then Some (acc ++ [(k, v)], r4)
                          else if d =? 44
                          then next (skip_ws r4) (acc ++ [(k, v)])
                          else None
                      | [] => None
                      end
                  end
                else None
            | [] => None
            end
        end
      else None
  | [] => None
  end.

(** One turn of the loop of [JSONArray]: a value, then the closing
    bracket or a comma and the next turn. *)
Definition element (scan_once : str -> option (pyval * str))
  (next : str -> list pyval -> option (list pyval * str))
  (s : str) (acc : list pyval) : option (list pyval * str) :=
  match scan_once s with
  | None => None
  | Some (v, r1) =>
      match skip_ws r1 with
      | d :: r2 =>
          if d =? 93 then Some (acc ++ [v], r2)
          else if d =? 44 then next (skip_ws r2) (acc ++ [v])
          else None
      | [] => None
      end
  end.

(** [scan_once] and the two loops.  Python recurses and loops freely; here
    each call and each turn takes one unit of [fuel]. *)
Fixpoint scan_once (fuel : nat) (s : str) : option (pyval * str) :=
  match fuel with
  | O => None
  | S fuel' =>
      scan_value (JSONObject (members fuel')) (JSONArray (elements fuel')) s
  end

with members (fuel : nat) (s : str) (acc : list (str * pyval))
  : option (list (str * pyval) * str) :=
  match fuel with
  | O => None
  | S fuel' => member (scan_once fuel') (members fuel') s acc
  end

with elements (fuel : nat) (s : str) (acc : list pyval)
  : option (list pyval * str) :=
  match fuel with
  | O => None
  | S fuel' => element (scan_once fuel') (elements fuel') s acc
  end.

(** The fuel that [loads] gives [scan_once]: twice the length of the text
    is more than any text needs (see [scan_once_enough]). *)
Definition depth (s : str) : nat := S (S (2 * length s)).

(** [json.loads(s)] for a [str]: no byte-order mark, one value, then only
    whitespace. *)
Definition loads (s : str) : outcome pyval :=
  if startswith [0xFEFF] s then Raise JSONDecodeError
  else
    match scan_once (depth s) (skip_ws s) with
    | Some (v, rest) =>
        match skip_ws rest with
        | [] => Ok v
        | _ :: _ => Raise JSONDecodeError
        end
    | None => Raise JSONDecodeError
    end.

End Json.

(* ================================================================== *)
(** * [Message] *)

Record Message : Type := mkMessage {
  id : pyval;
  from_user : pyval;
  to_user : pyval;
  content : pyval;
  timestamp : pyval;
  message_type : pyval;
  thread_id : pyval
}.

Definition lookup (k : str) (d : list (str * pyval)) : option pyval :=
  option_map snd (find (fun kv => str_eqb (fst kv) k) d).

Definition field_names : list str :=
  [lit "id"; lit "from_user"; lit "to_user"; lit "content"; lit "timestamp";
   lit "message_type"; lit "thread_id"].

(** [asdict(self)]: the fields in their order of declaration. *)
Definition to_dict (m : Message) : pyval :=
  PDict [(lit "id", id m); (lit "from_user", from_user m);
         (lit "to_user", to_user m); (lit "content", content m);
         (lit "timestamp", timestamp m);
         (lit "message_type", message_type m);
         (lit "thread_id", thread_id m)].

(** [cls] applied to the entries of [data] as keyword arguments: a
    [TypeError] when [data] is no mapping, when a key is not a field, or
    when a field without default is missing.  The values are taken as
    they are. *)
Definition from_dict (data : pyval) : outcome Message :=
  match data with
  | PDict d =>
      if forallb (fun kv => existsb (str_eqb (fst kv)) field_names) d then
        match lookup (lit "id") d, lookup (lit "from_user") d,
              lookup (lit "to_user") d, lookup (lit "content") d,
              lookup (lit "timestamp") d with
        | Some i, Some f, Some t, Some c, Some ts =>
            Ok (mkMessage i f t c ts
                  (match lookup (lit "message_type") d with
                   | Some k => k
                   | None => PStr (lit "dm")
                   end)
                  (match lookup (lit "thread_id") d with
                   | Some th => th
                   | None => PNone
                   end))
        | _, _, _, _, _ => Raise TypeError
        end
      else Raise TypeError
  | _ => Raise TypeError
  end.

(** [json.dumps(message.to_dict()).encode()] *)
Definition encode (m : Message) : outcome bytes :=
  match utf8_encode (Json.dumps (to_dict m)) with
  | Some b => Ok b
  | None => Raise UnicodeEncodeError
  end.

(** [Message.from_dict(json.loads(msg.data.decode()))] *)
Definition decode (data : bytes) : outcome Message :=
  match utf8_decode data with
  | None => Raise UnicodeDecodeError
  | Some s =>
      match Json.loads s with
      | Ok v => from_dict v
      | Raise e => Raise e
      end
  end.

(** [v == s] for a [str] [s] *)
Definition eq_str (v : pyval) (s : str) : bool :=
  match v with
  | PStr x => str_eqb x s
  | _ => false
  end.

(** [v[:50]]: defined on sequences only. *)
Definition slice50 (v : pyval) : outcome pyval :=
  match v with
  | PStr s => Ok (PStr (slice_to 50 s))
  | PList l => Ok (PList (firstn 50 l))
  | _ => Raise TypeError
  end.

(* ================================================================== *)
(** * The world around the components *)

(** One reading of [datetime.utcnow()]: the text of its [timestamp()] and
    its [isoformat()]. *)
Record instant : Type := mkInstant { posix : str; iso : str }.

Inductive log_record : Type :=
| Info (text : string) (args : list pyval)
| Error (text : string) (e : option exn).

(** Who holds a subscription on the broker. *)
Inductive subscriber : Type :=
| AgentInbox (agent : str)
| RouterFeed
| ViewerFeed.

Record World : Type := mkWorld {
  NATS_NAMESPACE : str;            (* from the environment, read once *)
  py_repr : pyval -> str;          (* the interpreter's [repr] *)
  NATS_AVAILABLE : bool;
  broker_up : bool;                (* [nats.connect] answers in time *)
  faults : list bool;              (* upcoming publishes: [true] raises *)
  published : list (str * bytes);  (* what the broker accepted, in order *)
  subscriptions : list (str * subscriber);
  clock : nat -> instant;
  ticks : nat;
  log : list log_record;
  stdout : list (string * pyval)
}.

Definition with_faults (f : list bool) (w : World) : World :=
  mkWorld (NATS_NAMESPACE w) (py_repr w) (NATS_AVAILABLE w) (broker_up w) f
          (published w) (subscriptions w) (clock w) (ticks w) (log w)
          (stdout w).

Definition with_published (p : list (str * bytes)) (w : World) : World :=
  mkWorld (NATS_NAMESPACE w) (py_repr w) (NATS_AVAILABLE w) (broker_up w)
          (faults w) p (subscriptions w) (clock w) (ticks w) (log w)
          (stdout w).

Definition with_subscriptions (s : list (str * subscriber)) (w : World)
  : World :=
  mkWorld (NATS_NAMESPACE w) (py_repr w) (NATS_AVAILABLE w) (broker_up w)
          (faults w) (published w) s (clock w) (ticks w) (log w) (stdout w).

Definition with_ticks (n : nat) (w : World) : World :=
  mkWorld (NATS_NAMESPACE w) (py_repr w) (NATS_AVAILABLE w) (broker_up w)
          (faults w) (published w) (subscriptions w) (clock w) n (log w)
          (stdout w).

Definition with_log (l : list log_record) (w : World) : World :=
  mkWorld (NATS_NAMESPACE w) (py_repr w) (NATS_AVAILABLE w) (broker_up w)
          (faults w) (published w) (subscriptions w) (clock w) (ticks w) l
          (stdout w).

Definition with_stdout (o : list (string * pyval)) (w : World) : World :=
  mkWorld (NATS_NAMESPACE w) (py_repr w) (NATS_AVAILABLE w) (broker_up w)
          (faults w) (published w) (subscriptions w) (clock w) (ticks w)
          (log w) o.

(** ** Computations: a state and an outcome *)

Definition M (S A : Type) : Type := S -> outcome A * S.

Definition ret {S A : Type} (a : A) : M S A := fun s => (Ok a, s).

Definition raise {S A : Type} (e : exn) : M S A := fun s => (Raise e, s).

Definition bind {S A B : Type} (m : M S A) (k : A -> M S B) : M S B :=
  fun s =>
    match m s with
    | (Ok a, s') => k a s'
    | (Raise e, s') => (Raise e, s')
    end.

(** [try: body / except Exception as e: handler e] *)
Definition try_except {S A : Type} (body : M S A) (handler : exn -> M S A)
  : M S A :=
  fun s =>
    match body s with
    | (Ok a, s') => (Ok a, s')
    | (Raise e, s') => handler e s'
    end.

Definition of_outcome {S A : Type} (o : outcome A) : M S A := fun s => (o, s).

Declare Scope py_scope.
Delimit Scope py_scope with py.
Notation "x <- m ;; k" := (bind m (fun x => k))
  (at level 61, m at next level, right associativity) : py_scope.
Notation "m ;; k" := (bind m (fun _ => k))
  (at level 61, right associativity) : py_scope.
Local Open Scope py_scope.

(** An effect on the world, run by a method of an object of type [Self]. *)
Definition in_world {Self A : Type} (m : M World A) : M (Self * World) A :=
  fun s =>
    let '(r, w') := m (snd s) in (r, (fst s, w')).

Definition get_self {Self : Type} : M (Self * World) Self :=
  fun s => (Ok (fst s), s).

Definition set_self {Self : Type} (o : Self) : M (Self * World) unit :=
  fun s => (Ok tt, (o, snd s)).

Definition get_world : M World World := fun w => (Ok w, w).

(** ** The logger, standard output, the clock *)

Definition logger_info (text : string) (args : list pyval) : M World unit :=
  fun w => (Ok tt, with_log (log w ++ [Info text args]) w).

Definition logger_error (text : string) (e : option exn) : M World unit :=
  fun w => (Ok tt, with_log (log w ++ [Error text e]) w).

Definition print (label : string) (v : pyval) : M World unit :=
  fun w => (Ok tt, with_stdout (stdout w ++ [(label, v)]) w).

Definition utcnow : M World instant :=
  fun w => (Ok (clock w (ticks w)), with_ticks (S (ticks w)) w).

(** What an f-string writes for a value: a [str] as it is, anything else
    through the interpreter. *)
Definition format (w : World) (v : pyval) : str :=
  match v with
  | PStr s => s
  | _ => py_repr w v
  end.

(** ** The NATS client *)

Inductive NATS : Type := Client.

(** [await asyncio.wait_for(nats.connect(NATS_URL), timeout=5.0)] *)
Definition nats_connect : M World NATS :=
  fun w => if broker_up w then (Ok Client, w) else (Raise ConnectError, w).

(** [await nc.publish(subject, payload)]; on [None] the attribute lookup
    fails. *)
Definition nc_publish (nc : option NATS) (subject : str) (payload : bytes)
  : M World unit :=
  match nc with
  | None => raise AttributeError
  | Some _ =>
      fun w =>
        match faults w with
        | true :: rest => (Raise PublishError, with_faults rest w)
        | false :: rest =>
            (Ok tt,
             with_published (published w ++ [(subject, payload)])
                            (with_faults rest w))
        | [] =>
            (Ok tt, with_published (published w ++ [(subject, payload)]) w)
        end
  end.

(** [await nc.publish(subject, json.dumps(message.to_dict()).encode())]:
    the method is looked up on [nc] before the argument is evaluated. *)
Definition publish_message (nc : option NATS) (subject : str)
  (message : Message) : M World unit :=
  match nc with
  | None => raise AttributeError
  | Some _ =>
      payload <- of_outcome (encode message) ;;
      nc_publish nc subject payload
  end.

(** [await nc.subscribe(subject, cb=...)] *)
Definition nc_subscribe (nc : option NATS) (subject : str) (who : subscriber)
  : M World (str * subscriber) :=
  match nc with
  | None => raise AttributeError
  | Some _ =>
      fun w =>
        (Ok (subject, who),
         with_subscriptions (subscriptions w ++ [(subject, who)]) w)
  end.

(** Subjects are tokens joined by dots; in a pattern [*] stands for one
    token and a final [>] for one token or more. *)
Fixpoint split_dots (s : str) : list str :=
  match s with
  | [] => [[]]
  | c :: t =>
      if c =? 46 then [] :: split_dots t
      else
        match split_dots t with
        | tok :: toks => (c :: tok) :: toks
        | [] => [[c]]
        end
  end.

Fixpoint match_tokens (pat subj : list str) : bool :=
  match pat with
  | [] => match subj with [] => true | _ :: _ => false end
  | p :: pat' =>
      if str_eqb p (lit ">")
      then match pat', subj with [], _ :: _ => true | _, _ => false end
      else
        match subj with
        | [] => false
        | s :: subj' =>
            (str_eqb p (lit "*") || str_eqb p s) && match_tokens pat' subj'
        end
  end.

Definition subject_matches (pattern subject : str) : bool :=
  match_tokens (split_dots pattern) (split_dots subject).

(** The payloads among the publications [pubs] that the broker hands to
    the subscriptions of [who], in the order of publication, one for each
    subscription that matches. *)
Definition delivered (who : subscriber -> bool)
  (subs : list (str * subscriber)) (pubs : list (str * bytes)) : list bytes :=
  flat_map
    (fun pub =>
       flat_map
         (fun sub =>
            if who (snd sub) && subject_matches (fst sub) (fst pub)
            then [snd pub] else [])
         subs)
    pubs.

Definition deliveries (who : subscriber -> bool) (w : World) : list bytes :=
  delivered who (subscriptions w) (published w).

Definition is_viewer (who : subscriber) : bool :=
  match who with
  | ViewerFeed => true
  | _ => false
  end.

Definition is_agent (name : str) (who : subscriber) : bool :=
  match who with
  | AgentInbox n => str_eqb n name
  | _ => false
  end.

(* ================================================================== *)
(** * [AgentMessageQueue]: the inbox processor of one agent *)

Module AgentMessageQueue.

(** [message_handler or self.default_message_handler]: the bound default
    method, or the callable given by the caller. *)
Inductive handler : Type :=
| default_handler
| custom_handler (h : Message -> M World unit).

Record t : Type := mk {
  agent_name : str;
  inbox_subject : str;
  outbox_subject : str;
  message_handler : handler;
  nc : option NATS;
  subscription : option (str * subscriber)
}.

Definition with_nc (c : option NATS) (self : t) : t :=
  mk (agent_name self) (inbox_subject self) (outbox_subject self)
     (message_handler self) c (subscription self).

Definition with_subscription (sub : option (str * subscriber)) (self : t)
  : t :=
  mk (agent_name self) (inbox_subject self) (outbox_subject self)
     (message_handler self) (nc self) sub.

Definition __init__ (w : World) (agent_name : str)
  (message_handler : option (Message -> M World unit)) : t :=
  mk agent_name
     (NATS_NAMESPACE w ++ lit ".agents." ++ agent_name ++ lit ".inbox")
     (NATS_NAMESPACE w ++ lit ".agents." ++ agent_name ++ lit ".outbox")
     (match message_handler with
      | Some h => custom_handler h
      | None => default_handler
      end)
     None None.

Definition connect : M (t * World) bool :=
  w <- in_world get_world ;;
  if negb (NATS_AVAILABLE w) then
    in_world (logger_error "NATS not available" None) ;;
    ret false
  else
    try_except
      (c <- in_world nats_connect ;;
       self <- get_self ;;
       set_self (with_nc (Some c) self) ;;
       in_world (logger_info "Agent {} connected to NATS"
                             [PStr (agent_name self)]) ;;
       ret true)
      (fun e =>
         in_world (logger_error "Failed to connect to NATS" (Some e)) ;;
         ret false).

Definition send_message (to_user : pyval) (content : str) (thread_id : pyval)
  : M (t * World) unit :=
  self0 <- get_self ;;
  match nc self0 with
  | None => connect
  | Some _ => ret true
  end ;;
  self <- get_self ;;
  w <- in_world get_world ;;
  t_id <- in_world utcnow ;;
  t_stamp <- in_world utcnow ;;
  let message :=
    mkMessage (PStr (lit "msg_" ++ posix t_id))
              (PStr (lit "agent_" ++ agent_name self))
              to_user
              (PStr content)
              (PStr (iso t_stamp))
              (PStr (lit "dm"))
              thread_id in
  subject <-
    match to_user with
    | PStr to =>
        if startswith (lit "agent_") to then
          let recipient_agent := replace (lit "agent_") [] to in
          ret (NATS_NAMESPACE w ++ lit ".agents." ++ recipient_agent
               ++ lit ".inbox")
        else
          ret (NATS_NAMESPACE w ++ lit ".messages.dm." ++ to)
    | _ => raise AttributeError
    end ;;
  in_world (publish_message (nc self) subject message) ;;
  in_world (publish_message (nc self) (outbox_subject self) message) ;;
  in_world (logger_info "[{}] Sent message to {}"
                        [PStr (agent_name self); to_user]).

Definition default_message_handler (message : Message) : M (t * World) unit :=
  self <- get_self ;;
  w <- in_world get_world ;;
  in_world (logger_info "[{}] Received: {}"
                        [PStr (agent_name self); content message]) ;;
  head <- of_outcome (slice50 (content message)) ;;
  let response :=
    lit "Agent " ++ agent_name self ++ lit " received your message: '"
    ++ format w head ++ lit "...'" in
  send_message (from_user message) response (thread_id message).

Definition call_handler (message : Message) : M (t * World) unit :=
  self <- get_self ;;
  match message_handler self with
  | default_handler => default_message_handler message
  | custom_handler h => in_world (h message)
  end.

(** The callback that [start_listening] registers on the inbox. *)
Definition message_callback (data : bytes) : M (t * World) unit :=
  try_except
    (message <- of_outcome (decode data) ;;
     self <- get_self ;;
     head <- of_outcome (slice50 (content message)) ;;
     in_world (logger_info "[{}] Received message from {}: {}..."
                           [PStr (agent_name self); from_user message; head]) ;;
     call_handler message)
    (fun e => in_world (logger_error "Error processing message" (Some e))).

Definition start_listening : M (t * World) unit :=
  self0 <- get_self ;;
  connected <-
    match nc self0 with
    | None => connect
    | Some _ => ret true
    end ;;
  if negb connected then ret tt
  else
    self <- get_self ;;
    sub <- in_world (nc_subscribe (nc self) (inbox_subject self)
                                  (AgentInbox (agent_name self))) ;;
    set_self (with_subscription (Some sub) self) ;;
    in_world (logger_info "Agent {} listening on {}"
                          [PStr (agent_name self); PStr (inbox_subject self)]).

End AgentMessageQueue.

(* ================================================================== *)
(** * [MessageRouter] *)

Module MessageRouter.

Record t : Type := mk {
  nc : option NATS;
  message_history : list Message
}.

Definition __init__ : t := mk None [].

Definition connect : M (t * World) bool :=
  w <- in_world get_world ;;
  if negb (NATS_AVAILABLE w) then
    in_world (logger_error "NATS not available" None) ;;
    ret false
  else
    try_except
      (c <- in_world nats_connect ;;
       self <- get_self ;;
       set_self (mk (Some c) (message_history self)) ;;
       in_world (logger_info "MessageRouter connected to NATS" []) ;;
       ret true)
      (fun e =>
         in_world (logger_error "Failed to connect to NATS" (Some e)) ;;
         ret false).

Definition send_dm (from_user to_agent content : str)
  : M (t * World) Message :=
  self0 <- get_self ;;
  match nc self0 with
  | None => connect
  | Some _ => ret true
  end ;;
  self <- get_self ;;
  w <- in_world get_world ;;
  t_id <- in_world utcnow ;;
  t_stamp <- in_world utcnow ;;
  let message :=
    mkMessage (PStr (lit "msg_" ++ posix t_id))
              (PStr from_user)
              (PStr (lit "agent_" ++ to_agent))
              (PStr content)
              (PStr (iso t_stamp))
              (PStr (lit "dm"))
              PNone in
  let subject := NATS_NAMESPACE w ++ lit ".agents." ++ to_agent
                 ++ lit ".inbox" in
  in_world (publish_message (nc self) subject message) ;;
  set_self (mk (nc self) (message_history self ++ [message])) ;;
  in_world (publish_message (nc self)
                            (NATS_NAMESPACE w ++ lit ".messages.all")
                            message) ;;
  in_world (logger_info "Routed DM from {} to agent {}"
                        [PStr from_user; PStr to_agent]) ;;
  ret message.

(** The callback that [subscribe_all_messages] registers on the feed. *)
Definition message_callback (callback : Message -> M World unit)
  (data : bytes) : M World unit :=
  try_except
    (message <- of_outcome (decode data) ;;
     callback message)
    (fun e => logger_error "Error in message callback" (Some e)).

Definition subscribe_all_messages : M (t * World) unit :=
  self0 <- get_self ;;
  match nc self0 with
  | None => connect
  | Some _ => ret true
  end ;;
  self <- get_self ;;
  w <- in_world get_world ;;
  in_world (nc_subscribe (nc self) (NATS_NAMESPACE w ++ lit ".messages.all")
                         RouterFeed) ;;
  in_world (logger_info "Subscribed to all messages stream" []).

Definition get_conversation (self : t) (user1 user2 : str) : list Message :=
  filter
    (fun msg =>
       (eq_str (from_user msg) user1 && eq_str (to_user msg) user2)
       || (eq_str (from_user msg) user2 && eq_str (to_user msg) user1))
    (message_history self).

End MessageRouter.

(* ================================================================== *)
(** * [MessageViewer] *)

Module MessageViewer.

Record t : Type := mk {
  nc : option NATS;
  messages : list Message
}.

Definition __init__ : t := mk None [].

Definition connect : M (t * World) bool :=
  w <- in_world get_world ;;
  if negb (NATS_AVAILABLE w) then
    in_world (logger_error "NATS not available" None) ;;
    ret false
  else
    try_except
      (c <- in_world nats_connect ;;
       self <- get_self ;;
       set_self (mk (Some c) (messages self)) ;;
       in_world (logger_info "MessageViewer connected to NATS" []) ;;
       ret true)
      (fun e =>
         in_world (logger_error "Failed to connect to NATS" (Some e)) ;;
         ret false).

(** The callback that [start_viewing] registers three times. *)
Definition message_callback (print_messages : bool) (data : bytes)
  : M (t * World) unit :=
  try_except
    (message <- of_outcome (decode data) ;;
     self <- get_self ;;
     set_self (mk (nc self) (messages self ++ [message])) ;;
     if print_messages then
       in_world (print "timestamp" (timestamp message)) ;;
       in_world (print "From" (from_user message)) ;;
       in_world (print "To" (to_user message)) ;;
       in_world (print "Message" (content message))
     else ret tt)
    (fun e => in_world (logger_error "Error viewing message" (Some e))).

Definition start_viewing (print_messages : bool) : M (t * World) unit :=
  self0 <- get_self ;;
  match nc self0 with
  | None => connect
  | Some _ => ret true
  end ;;
  self <- get_self ;;
  w <- in_world get_world ;;
  in_world (nc_subscribe (nc self) (NATS_NAMESPACE w ++ lit ".messages.>")
                         ViewerFeed) ;;
  in_world (nc_subscribe (nc self) (NATS_NAMESPACE w ++ lit ".agents.*.inbox")
                         ViewerFeed) ;;
  in_world (nc_subscribe (nc self) (NATS_NAMESPACE w ++ lit ".agents.*.outbox")
                         ViewerFeed) ;;
  in_world (logger_info "MessageViewer subscribed to all message streams" []).

Definition get_all_messages (self : t) : list Message := messages self.

Definition get_agent_messages (self : t) (agent_name : str) : list Message :=
  filter
    (fun msg =>
       eq_str (from_user msg) (lit "agent_" ++ agent_name)
       || eq_str (to_user msg) (lit "agent_" ++ agent_name))
    (messages self).

End MessageViewer.

(* ================================================================== *)
(** * Well-formed text and envelopes *)

(** A Unicode scalar value: a code point that is not a surrogate. *)
Definition scalar (c : N) : Prop := c < 0x110000 /\ is_surrogate c = false.

Definition valid_str (s : str) : Prop := Forall scalar s.

(** The envelope of the wire shape: text in every field, one of the three
    kinds, and a thread that is absent or text. *)
Definition valid_text (v : pyval) : Prop :=
  match v with
  | PStr s => valid_str s
  | _ => False
  end.

Definition valid_kind (v : pyval) : Prop :=
  v = PStr (lit "dm") \/ v = PStr (lit "broadcast") \/ v = PStr (lit "system").

Definition valid_thread (v : pyval) : Prop :=
  match v with
  | PNone => True
  | PStr s => valid_str s
  | _ => False
  end.

Record valid_envelope (m : Message) : Prop := {
  valid_id : valid_text (id m);
  valid_from : valid_text (from_user m);
  valid_to : valid_text (to_user m);
  valid_content : valid_text (content m);
  valid_timestamp : valid_text (timestamp m);
  valid_message_type : valid_kind (message_type m);
  valid_thread_id : valid_thread (thread_id m)
}.


(** The text [Json.dumps] writes between the braces of a dict. *)
Fixpoint dumps_members (d : list (str * pyval)) : str :=
  match d with
  | [] => []
  | [(k, x)] => Json.encode_basestring_ascii k ++ lit ": " ++ Json.dumps x
  | (k, x) :: t =>
      Json.encode_basestring_ascii k ++ lit ": " ++ Json.dumps x
      ++ lit ", " ++ dumps_members t
  end.

(** A text that begins with something other than whitespace. *)
Definition starts_value (s : str) : Prop :=
  match s with
  | c :: _ => Json.is_ws c = false
  | [] => False
  end.

(** An entry of a flat dict: a key and a value that is text or [None]. *)
Definition flat_entry (kv : str * pyval) : Prop :=
  valid_str (fst kv) /\ valid_thread (snd kv).

(** ASCII text is its own UTF-8 encoding. *)
Definition ascii_text (s : str) : Prop := Forall (fun c => c < 128) s.



(** ** Deciding well-formedness *)

Definition scalarb (c : N) : bool := (c <? 0x110000) && negb (is_surrogate c).

Definition valid_strb (s : str) : bool := forallb scalarb s.

Definition valid_textb (v : pyval) : bool :=
  match v with
  | PStr s => valid_strb s
  | _ => false
  end.

Definition valid_kindb (v : pyval) : bool :=
  eq_str v (lit "dm") || eq_str v (lit "broadcast") || eq_str v (lit "system").

Definition valid_threadb (v : pyval) : bool :=
  match v with
  | PNone => true
  | PStr s => valid_strb s
  | _ => false
  end.

Definition valid_envelopeb (m : Message) : bool :=
  valid_textb (id m) && valid_textb (from_user m) && valid_textb (to_user m)
  && valid_textb (content m) && valid_textb (timestamp m)
  && valid_kindb (message_type m) && valid_threadb (thread_id m).

(** A value that is text or [None], whatever its code points. *)
Definition textual (v : pyval) : Prop :=
  match v with
  | PStr _ | PNone => True
  | _ => False
  end.

Record textual_fields (m : Message) : Prop := {
  textual_id : textual (id m);
  textual_from : textual (from_user m);
  textual_to : textual (to_user m);
  textual_content : textual (content m);
  textual_timestamp : textual (timestamp m);
  textual_message_type : textual (message_type m);
  textual_thread_id : textual (thread_id m)
}.

(* ================================================================== *)
(** * Observing a run *)

(** What was published between the world [w0] and a later world [w1]. *)
Definition new_publications (w0 w1 : World) : list (str * bytes) :=
  skipn (length (published w0)) (published w1).

(** The payloads among [pubs] that went to [subject], in order. *)
Definition payloads_on (subject : str) (pubs : list (str * bytes))
  : list bytes :=
  map snd (filter (fun pub => str_eqb (fst pub) subject) pubs).

(** A component can publish: it holds a connection, or the lazy
    [connect] of its first send will succeed. *)
Definition can_connect (nc : option NATS) (w : World) : Prop :=
  nc <> None \/ (NATS_AVAILABLE w = true /\ broker_up w = true).

(** The subjects that [AgentMessageQueue.__init__] computed. *)
Definition well_formed (w : World) (self : AgentMessageQueue.t) : Prop :=
  AgentMessageQueue.inbox_subject self
  = NATS_NAMESPACE w ++ lit ".agents." ++ AgentMessageQueue.agent_name self
    ++ lit ".inbox"
  /\ AgentMessageQueue.outbox_subject self
     = NATS_NAMESPACE w ++ lit ".agents."
       ++ AgentMessageQueue.agent_name self ++ lit ".outbox".

(** None of the next [n] publishes is scheduled to fail. *)
Definition no_fault (n : nat) (w : World) : Prop :=
  Forall (fun f => f = false) (firstn n (faults w)).

(** The world after the logger recorded the exception [e]. *)
Definition logged (text : string) (e : exn) (w : World) : World :=
  with_log (log w ++ [Error text (Some e)]) w.

(** The clock hands out well-formed text. *)
Definition valid_clock (w : World) : Prop :=
  forall k : nat,
    valid_str (posix (clock w k)) /\ valid_str (iso (clock w k)).

(** A processor that answers with the default echo handler: built by
    [__init__] without a handler, connected, listening on its inbox (a
    subject that, read as a pattern, matches itself), and with a persona
    id from which stripping the prefix of its agent identity gives it
    back. *)
Record echo_agent (w : World) (a : AgentMessageQueue.t) : Prop := {
  echo_well_formed : well_formed w a;
  echo_default : AgentMessageQueue.message_handler a
                 = AgentMessageQueue.default_handler;
  echo_connected : AgentMessageQueue.nc a <> None;
  echo_listening :
    In (AgentMessageQueue.inbox_subject a,
        AgentInbox (AgentMessageQueue.agent_name a))
       (subscriptions w)
    /\ subject_matches (AgentMessageQueue.inbox_subject a)
                       (AgentMessageQueue.inbox_subject a) = true;
  echo_name : valid_str (AgentMessageQueue.agent_name a);
  echo_prefix :
    replace (lit "agent_") [] (lit "agent_" ++ AgentMessageQueue.agent_name a)
    = AgentMessageQueue.agent_name a
}.

(** ** The subject scheme *)

(** What a subject can name: the inbox or the outbox of an agent, the
    stream of a human, the feed of all messages. *)
Inductive entity : Type :=
| Inbox (agent : str)
| Outbox (agent : str)
| Human (human : str)
| Feed.

(** The subject of an entity, as the f-strings of the source build it. *)
Definition subject (ns : str) (e : entity) : str :=
  match e with
  | Inbox a => ns ++ lit ".agents." ++ a ++ lit ".inbox"
  | Outbox a => ns ++ lit ".agents." ++ a ++ lit ".outbox"
  | Human h => ns ++ lit ".messages.dm." ++ h
  | Feed => ns ++ lit ".messages.all"
  end.

(** The viewer's callback run on each delivery in turn. *)
Fixpoint receive_all (print_messages : bool) (ds : list bytes)
  : M (MessageViewer.t * World) unit :=
  match ds with
  | [] => ret tt
  | d :: ds' =>
      MessageViewer.message_callback print_messages d ;;
      receive_all print_messages ds'
  end.

(** The envelopes that decode, among the payloads [ds]. *)
Definition decoded (ds : list bytes) : list Message :=
  flat_map (fun d => match decode d with
                     | Ok m => [m]
                     | Raise _ => []
                     end) ds.

(** [l] with some elements left out, the others in their order. *)
Inductive subseq {A : Type} : list A -> list A -> Prop :=
| subseq_nil : subseq [] []
| subseq_skip (x : A) (l h : list A) : subseq l h -> subseq l (x :: h)
| subseq_take (x : A) (l h : list A) : subseq l h -> subseq (x :: l) (x :: h).

(** The pair of a conversation: sent by one of the two to the other. *)
Definition between (x y : str) (msg : Message) : Prop :=
  (from_user msg = PStr x /\ to_user msg = PStr y)
  \/ (from_user msg = PStr y /\ to_user msg = PStr x).

(** ** Reply chains between two inbox processors *)

(** One hop: [data] arrives in the inbox of [self], whose callback runs;
    of what it published, the broker hands to [peer] what the
    subscriptions of [peer] match. *)
Definition hop (self peer : AgentMessageQueue.t) (w : World) (data : bytes)
  : (AgentMessageQueue.t * World) * list bytes :=
  let '(_, (self', w')) :=
    AgentMessageQueue.message_callback data (self, w) in
  ((self', w'),
   delivered (is_agent (AgentMessageQueue.agent_name peer))
             (subscriptions w') (new_publications w w')).

(** The automatic replies produced when at most [n] hops are delivered,
    starting with [data] in the inbox of [a]. *)
Fixpoint volley (n : nat) (a b : AgentMessageQueue.t) (w : World)
  (data : bytes) : nat :=
  match n with
  | O => O
  | S n' =>
      match hop a b w data with
      | ((a', w'), reply :: _) => S (volley n' b a' w' reply)
      | (_, []) => O
      end
  end.

(** The reply chain is bounded: whatever number of hops is delivered, no
    more than [bound] replies are produced. *)
Definition chain_bounded (a b : AgentMessageQueue.t) (w : World)
  (data : bytes) : Prop :=
  exists bound : nat, forall n : nat, (volley n a b w data <= bound)%nat.

(** The accumulator holds at most one entry for an envelope id. *)
Definition deduplicated (l : list Message) : Prop := NoDup (map id l).

(** ** A concrete deployment, after [demo] *)

Definition digits (n : N) : str := lit (NilZero.string_of_uint (N.to_uint n)).

Definition demo_clock (k : nat) : instant :=
  mkInstant (digits (1700000000 + N.of_nat k) ++ lit ".25")
            (lit "2023-11-14T22:13:" ++ digits (20 + N.of_nat k)).

Definition demo_world : World :=
  mkWorld (lit "themultiverse") (fun _ => lit "?") true true [] [] []
          demo_clock 0 [] [].

Definition run {S A : Type} (m : M S A) (s : S) : S := snd (m s).

(** The viewer is started, the router sends one DM, and the broker hands
    the viewer what its subscriptions match. *)
Definition demo_viewer : MessageViewer.t :=
  let s1 := run (MessageViewer.start_viewing false)
                (MessageViewer.__init__, demo_world) in
  let s2 := run (MessageRouter.send_dm (lit "alice") (lit "sylvia")
                                       (lit "hello"))
                (MessageRouter.__init__, snd s1) in
  fst (run (receive_all false (deliveries is_viewer (snd s2)))
           (fst s1, snd s2)).

(** The router after two DMs from alice to sylvia. *)
Definition demo_router : MessageRouter.t :=
  let s1 := run (MessageRouter.send_dm (lit "alice") (lit "sylvia")
                                       (lit "hello"))
                (MessageRouter.__init__, demo_world) in
  fst (run (MessageRouter.send_dm (lit "alice") (lit "sylvia")
                                  (lit "are you there?")) s1).

(** Two processors with the default handler, started as [demo] starts
    them, and a first envelope from roy for the inbox of sylvia. *)
Definition demo_sylvia_started : AgentMessageQueue.t * World :=
  run AgentMessageQueue.start_listening
      (AgentMessageQueue.__init__ demo_world (lit "sylvia") None, demo_world).

Definition demo_roy_started : AgentMessageQueue.t * World :=
  run AgentMessageQueue.start_listening
      (AgentMessageQueue.__init__ demo_world (lit "roy") None,
       snd demo_sylvia_started).

Definition demo_sylvia : AgentMessageQueue.t := fst demo_sylvia_started.

Definition demo_roy : AgentMessageQueue.t := fst demo_roy_started.

Definition demo_listening : World := snd demo_roy_started.

Definition demo_first : Message :=
  mkMessage (PStr (lit "msg_1699999999.5")) (PStr (lit "agent_roy"))
            (PStr (lit "agent_sylvia")) (PStr (lit "hi"))
            (PStr (lit "2023-11-14T22:13:19")) (PStr (lit "dm")) PNone.

(** ** Connections, patterns and tokens *)

(** The broker cannot be reached: the client library is missing, or
    [nats.connect] fails or times out. *)
Definition cannot_connect (w : World) : Prop :=
  NATS_AVAILABLE w = false \/ broker_up w = false.

(** What [connect] logs when it fails. *)
Definition connect_error (w : World) : log_record :=
  if NATS_AVAILABLE w then Error "Failed to connect to NATS" (Some ConnectError)
  else Error "NATS not available" None.

(** The three patterns that [start_viewing] subscribes to. *)
Definition viewer_patterns (ns : str) : list str :=
  [ns ++ lit ".messages.>"; ns ++ lit ".agents.*.inbox";
   ns ++ lit ".agents.*.outbox"].

(** The agent's identity is the sender or the recipient. *)
Definition involves (agent_name : str) (msg : Message) : Prop :=
  from_user msg = PStr (lit "agent_" ++ agent_name)
  \/ to_user msg = PStr (lit "agent_" ++ agent_name).

(** A value that is no [str]. *)
Definition no_text (v : pyval) : Prop :=
  match v with
  | PStr _ => False
  | _ => True
  end.

(** A text without a dot: one token of a subject. *)
Definition dotless (s : str) : Prop := Forall (fun c => c <> 46) s.

(** A namespace none of whose tokens is the wildcard [>]. *)
Definition plain_namespace (ns : str) : Prop :=
  Forall (fun tok => tok <> lit ">") (split_dots ns).

(* ================================================================== *)
(** * Properties *)

Ltac Zify.zify_post_hook ::= Z.to_euclidean_division_equations.

(** Decide the comparisons of the goal, dropping the impossible cases. *)
Ltac ncmp :=
  repeat match goal with
    | |- context [N.eqb ?a ?b] => destruct (N.eqb_spec a b); try lia
    | |- context [N.leb ?a ?b] => destruct (N.leb_spec a b); try lia
    | |- context [N.ltb ?a ?b] => destruct (N.ltb_spec a b); try lia
    end.

Section TextFacts.

Local Arguments N.eqb : simpl never.
Local Arguments N.leb : simpl never.
Local Arguments N.ltb : simpl never.
Local Arguments N.add : simpl never.
Local Arguments N.sub : simpl never.
Local Arguments N.mul : simpl never.
Local Arguments N.div : simpl never.
Local Arguments N.modulo : simpl never.

Lemma str_eqb_eq (a b : str) : str_eqb a b = true <-> a = b.
Proof.
  revert b; induction a as [|x a IH]; intros [|y b]; simpl;
    try (split; [discriminate | discriminate]); try tauto.
  rewrite andb_true_iff, N.eqb_eq, IH. split.
  - intros [-> ->]; reflexivity.
  - intros H; injection H as -> ->; split; reflexivity.
Qed.

Lemma str_eqb_refl (a : str) : str_eqb a a = true.
Proof. apply str_eqb_eq; reflexivity. Qed.

Lemma str_eqb_sym (a b : str) : str_eqb a b = str_eqb b a.
Proof.
  destruct (str_eqb a b) eqn:E, (str_eqb b a) eqn:F; try reflexivity.
  - apply str_eqb_eq in E; subst. rewrite str_eqb_refl in F; discriminate.
  - apply str_eqb_eq in F; subst. rewrite str_eqb_refl in E; discriminate.
Qed.

Lemma utf8_encode_ascii (s : str) : ascii_text s -> utf8_encode s = Some s.
Proof.
  induction 1 as [|c s Hc _ IH]; [reflexivity|].
  simpl. rewrite IH. unfold utf8_encode_char.
  ncmp. reflexivity.
Qed.

Lemma utf8_decode_ascii (s : str) : ascii_text s -> utf8_decode s = Some s.
Proof.
  induction 1 as [|c s Hc _ IH]; [reflexivity|].
  simpl. rewrite IH. ncmp. reflexivity.
Qed.

Lemma ascii_text_app (a b : str) :
  ascii_text a -> ascii_text b -> ascii_text (a ++ b).
Proof. intros; apply Forall_app; split; assumption. Qed.

Lemma hex_digit_ascii (n : N) : n < 16 -> Json.hex_digit n < 128.
Proof. intros H; unfold Json.hex_digit; ncmp. Qed.

Lemma u_escape_ascii (n : N) : ascii_text (Json.u_escape n).
Proof.
  unfold Json.u_escape, ascii_text.
  repeat apply Forall_cons; try apply Forall_nil; try lia;
    apply hex_digit_ascii; lia.
Qed.

Lemma escape_char_ascii (c : N) : ascii_text (Json.escape_char c).
Proof.
  unfold Json.escape_char.
  ncmp; cbn [andb];
    first [ apply u_escape_ascii
          | apply ascii_text_app; apply u_escape_ascii
          | unfold ascii_text; repeat apply Forall_cons;
            try apply Forall_nil; lia ].
Qed.

Lemma escape_ascii (s : str) : ascii_text (Json.escape s).
Proof.
  induction s as [|c s IH]; simpl; [constructor|].
  apply ascii_text_app; [apply escape_char_ascii | exact IH].
Qed.

Lemma quoted_ascii (s : str) : ascii_text (Json.encode_basestring_ascii s).
Proof.
  unfold Json.encode_basestring_ascii.
  apply ascii_text_app; [repeat apply Forall_cons; try apply Forall_nil; lia|].
  apply ascii_text_app;
    [apply escape_ascii | repeat apply Forall_cons; try apply Forall_nil; lia].
Qed.

(** *** Reading back what [escape] wrote *)

Lemma unhex_hex_digit (d : N) : d < 16 -> Json.unhex (Json.hex_digit d) = Some d.
Proof.
  intros H. unfold Json.unhex, Json.hex_digit.
  ncmp; simpl; f_equal; lia.
Qed.

Lemma scanstring_u_escape (n : N) (t : str) :
  n < 0x10000 ->
  Json.scanstring (Json.u_escape n ++ t)
  = if (0xD800 <=? n) && (n <=? 0xDBFF)
    then match t with
         | b :: u :: t3 =>
             if (b =? 92) && (u =? 117) then
               match t3 with
               | g1 :: g2 :: g3 :: g4 :: t4 =>
                   match Json.unhex4 g1 g2 g3 g4 with
                   | None => None
                   | Some uni2 =>
                       if (0xDC00 <=? uni2) && (uni2 <=? 0xDFFF)
                       then Json.push
                              (0x10000
                               + N.lor (N.shiftl (n - 0xD800) 10)
                                       (uni2 - 0xDC00))
                              (Json.scanstring t4)
                       else Json.push n (Json.scanstring t)
                   end
               | _ => None
               end
             else Json.push n (Json.scanstring t)
         | _ => Json.push n (Json.scanstring t)
         end
    else Json.push n (Json.scanstring t).
Proof.
  intros Hn. unfold Json.u_escape.
  cbn [app Json.scanstring].
  replace (92 =? 34) with false by reflexivity.
  replace (92 =? 92) with true by reflexivity.
  replace (117 =? 117) with true by reflexivity.
  cbv iota. unfold Json.unhex4.
  rewrite !unhex_hex_digit by lia.
  replace (n / 4096 mod 16 * 4096 + n / 256 mod 16 * 256
           + n / 16 mod 16 * 16 + n mod 16) with n by lia.
  reflexivity.
Qed.

Lemma lor_shiftl_low (a b k : N) :
  b < 2 ^ k -> N.lor (N.shiftl a k) b = a * 2 ^ k + b.
Proof.
  intros Hb.
  assert (Hland : N.land (N.shiftl a k) b = 0).
  { apply N.bits_inj_0. intros i. rewrite N.land_spec.
    destruct (N.lt_ge_cases i k) as [Hi | Hi].
    - rewrite N.shiftl_spec_low by exact Hi. reflexivity.
    - destruct (N.eq_dec b 0) as [-> | Hb0].
      + rewrite N.bits_0. apply andb_false_r.
      + rewrite (N.bits_above_log2 b i), andb_false_r; [reflexivity|].
        apply N.lt_le_trans with k; [|exact Hi].
        apply N.log2_lt_pow2; [lia | exact Hb]. }
  rewrite <- N.lxor_lor, <- N.add_nocarry_lxor by exact Hland.
  rewrite N.shiftl_mul_pow2. reflexivity.
Qed.

(** Above the basic plane [escape_char] writes a surrogate pair. *)
Lemma surrogate_pair (c : N) :
  0x10000 <= c < 0x110000 ->
  let n := c - 0x10000 in
  N.lor 0xD800 (N.land (N.shiftr n 10) 0x3FF) = 0xD800 + n / 1024
  /\ N.lor 0xDC00 (N.land n 0x3FF) = 0xDC00 + n mod 1024.
Proof.
  intros Hc n.
  change 0x3FF with (N.ones 10). rewrite !N.land_ones, N.shiftr_div_pow2.
  change (2 ^ 10) with 1024.
  change 0xD800 with (N.shiftl 54 10) at 1.
  change 0xDC00 with (N.shiftl 55 10) at 1.
  rewrite !lor_shiftl_low by (change (2 ^ 10) with 1024; lia).
  change (2 ^ 10) with 1024. subst n. split; lia.
Qed.

Lemma scanstring_escape_char (c : N) (t : str) :
  scalar c ->
  Json.scanstring (Json.escape_char c ++ t) = Json.push c (Json.scanstring t).
Proof.
  intros [Hlt Hsur]. unfold is_surrogate in Hsur.
  apply andb_false_iff in Hsur.
  unfold Json.escape_char.
  destruct (N.eqb_spec c 34) as [->|]; [reflexivity|].
  destruct (N.eqb_spec c 92) as [->|]; [reflexivity|].
  destruct (N.eqb_spec c 10) as [->|]; [reflexivity|].
  destruct (N.eqb_spec c 13) as [->|]; [reflexivity|].
  destruct (N.eqb_spec c 9) as [->|]; [reflexivity|].
  destruct (N.eqb_spec c 12) as [->|]; [reflexivity|].
  destruct (N.eqb_spec c 8) as [->|]; [reflexivity|].
  destruct ((32 <=? c) && (c <=? 126)) eqn:Hprint.
  - apply andb_true_iff in Hprint. destruct Hprint as [H1 H2].
    apply N.leb_le in H1, H2.
    cbn [app Json.scanstring]. ncmp. reflexivity.
  - destruct (N.ltb_spec c 0x10000) as [Hbmp | Hsup].
    + rewrite scanstring_u_escape by exact Hbmp.
      destruct Hsur as [Hs | Hs].
      * rewrite N.leb_gt in Hs. ncmp. reflexivity.
      * rewrite N.leb_gt in Hs.
        destruct (N.leb_spec 0xD800 c); [|reflexivity].
        destruct (N.leb_spec c 0xDBFF); [lia | reflexivity].
    + destruct (surrogate_pair c (conj Hsup Hlt)) as [Hhi Hlo].
      cbv zeta in Hhi, Hlo |- *. rewrite Hhi, Hlo.
      rewrite <- app_assoc.
      rewrite scanstring_u_escape by lia.
      replace ((0xD800 <=? 0xD800 + (c - 0x10000) / 1024)
               && (0xD800 + (c - 0x10000) / 1024 <=? 0xDBFF)) with true
        by (symmetry; apply andb_true_iff; split; apply N.leb_le; lia).
      unfold Json.u_escape at 1. cbn [app].
      replace (92 =? 92) with true by reflexivity.
      replace (117 =? 117) with true by reflexivity.
      cbv iota. cbn [andb]. unfold Json.unhex4.
      rewrite !unhex_hex_digit by lia.
      set (lo := 0xDC00 + (c - 0x10000) mod 1024).
      replace (lo / 4096 mod 16 * 4096 + lo / 256 mod 16 * 256
               + lo / 16 mod 16 * 16 + lo mod 16) with lo by (subst lo; lia).
      replace ((0xDC00 <=? lo) && (lo <=? 0xDFFF)) with true
        by (symmetry; apply andb_true_iff; split; apply N.leb_le;
            subst lo; lia).
      rewrite lor_shiftl_low by (change (2 ^ 10) with 1024; subst lo; lia).
      change (2 ^ 10) with 1024.
      replace (0x10000 + ((0xD800 + (c - 0x10000) / 1024 - 0xD800) * 1024
                          + (lo - 0xDC00))) with c by (subst lo; lia).
      reflexivity.
Qed.

Lemma scanstring_escape (s t : str) :
  valid_str s ->
  Json.scanstring (Json.escape s ++ 34 :: t) = Some (s, t).
Proof.
  induction 1 as [|c s Hc _ IH]; [reflexivity|].
  unfold Json.escape in *. cbn [flat_map]. rewrite <- app_assoc.
  rewrite scanstring_escape_char by exact Hc.
  rewrite IH. reflexivity.
Qed.

(** *** Reading back what [dumps] wrote for a flat dict *)

Lemma dumps_dict (d : list (str * pyval)) :
  Json.dumps (PDict d) = [123] ++ dumps_members d ++ [125].
Proof.
  reflexivity.
Qed.

Lemma skip_ws_starts (s : str) : starts_value s -> Json.skip_ws s = s.
Proof. destruct s as [|c t]; simpl; [tauto|]. intros ->. reflexivity. Qed.

Lemma scan_once_S (fuel : nat) (s : str) :
  Json.scan_once (S fuel) s
  = Json.scan_value (Json.JSONObject (Json.members fuel))
                    (Json.JSONArray (Json.elements fuel)) s.
Proof. reflexivity. Qed.

Lemma members_S (fuel : nat) (s : str) (acc : list (str * pyval)) :
  Json.members (S fuel) s acc
  = Json.member (Json.scan_once fuel) (Json.members fuel) s acc.
Proof. reflexivity. Qed.

Lemma elements_S (fuel : nat) (s : str) (acc : list pyval) :
  Json.elements (S fuel) s acc
  = Json.element (Json.scan_once fuel) (Json.elements fuel) s acc.
Proof. reflexivity. Qed.

Lemma scan_once_flat (v : pyval) (fuel : nat) (rest : str) :
  valid_thread v ->
  Json.scan_once (S fuel) (Json.dumps v ++ rest) = Some (v, rest).
Proof.
  destruct v; simpl valid_thread; try contradiction; intros Hv.
  - reflexivity.
  - cbn [Json.dumps]. unfold Json.encode_basestring_ascii.
    rewrite <- !app_assoc. cbn [app]. rewrite scan_once_S.
    unfold Json.scan_value. change (34 =? 34) with true. cbv iota.
    rewrite scanstring_escape by exact Hv. reflexivity.
Qed.

Lemma dumps_flat_starts (v : pyval) (rest : str) :
  valid_thread v -> starts_value (Json.dumps v ++ rest).
Proof. destruct v; simpl valid_thread; try contradiction; intros _; reflexivity. Qed.

Lemma skip_ws_space (s : str) : Json.skip_ws (32 :: s) = Json.skip_ws s.
Proof. reflexivity. Qed.

Lemma members_member (fuel : nat) (k : str) (x : pyval) (d : N) (r : str)
  (acc : list (str * pyval)) :
  valid_str k -> valid_thread x -> Json.is_ws d = false ->
  Json.members (S (S fuel))
    (Json.encode_basestring_ascii k ++ lit ": " ++ Json.dumps x ++ d :: r) acc
  = if d =? 125 then Some (acc ++ [(k, x)], r)
    else if d =? 44 then Json.members (S fuel) (Json.skip_ws r) (acc ++ [(k, x)])
    else None.
Proof.
  intros Hk Hx Hd. unfold Json.encode_basestring_ascii.
  rewrite <- !app_assoc. cbn [app]. rewrite members_S.
  unfold Json.member. change (34 =? 34) with true. cbv iota.
  rewrite scanstring_escape by exact Hk.
  change (lit ": ") with [58; 32]. cbn [app].
  change (Json.skip_ws (58 :: 32 :: Json.dumps x ++ d :: r))
    with (58 :: 32 :: Json.dumps x ++ d :: r). cbv iota.
  change (58 =? 58) with true. cbv iota.
  rewrite (skip_ws_space (Json.dumps x ++ d :: r)).
  rewrite (skip_ws_starts (Json.dumps x ++ d :: r))
    by (apply dumps_flat_starts; exact Hx).
  rewrite scan_once_flat by exact Hx.
  change (Json.skip_ws (d :: r))
    with (if Json.is_ws d then Json.skip_ws r else d :: r).
  rewrite Hd. reflexivity.
Qed.

Lemma dumps_members_starts (d : list (str * pyval)) (rest : str) :
  d <> [] -> starts_value (dumps_members d ++ rest).
Proof.
  destruct d as [|[k x] [|kv t]]; [congruence | |]; intros _; reflexivity.
Qed.

Lemma members_dumps (d : list (str * pyval)) :
  Forall flat_entry d -> d <> [] ->
  forall (fuel : nat) (acc : list (str * pyval)) (rest : str),
    (length d < fuel)%nat ->
    Json.members fuel (dumps_members d ++ 125 :: rest) acc
    = Some (acc ++ d, rest).
Proof.
  induction 1 as [|[k x] t [Hk Hx] Ht IH]; [congruence|].
  intros _ fuel acc rest Hfuel.
  destruct fuel as [|[|fuel]]; simpl in Hfuel; try lia.
  destruct t as [|kv t].
  - cbn [dumps_members]. rewrite <- !app_assoc.
    rewrite members_member by (assumption || reflexivity).
    reflexivity.
  - change (dumps_members ((k, x) :: kv :: t))
      with (Json.encode_basestring_ascii k ++ lit ": " ++ Json.dumps x
            ++ lit ", " ++ dumps_members (kv :: t)).
    rewrite <- !app_assoc. change (lit ", ") with [44; 32]. cbn [app].
    rewrite members_member by (assumption || reflexivity).
    change (44 =? 125) with false. change (44 =? 44) with true. cbv iota.
    rewrite skip_ws_space.
    rewrite skip_ws_starts by (apply dumps_members_starts; congruence).
    rewrite IH by (congruence || (simpl in *; lia)).
    rewrite <- app_assoc. reflexivity.
Qed.

Lemma dumps_members_length (d : list (str * pyval)) :
  (length d <= length (dumps_members d))%nat.
Proof.
  induction d as [|[k x] [|kv t] IH].
  - simpl; lia.
  - cbn [dumps_members length]. rewrite !length_app. simpl. lia.
  - change (dumps_members ((k, x) :: kv :: t))
      with (Json.encode_basestring_ascii k ++ lit ": " ++ Json.dumps x
            ++ lit ", " ++ dumps_members (kv :: t)).
    rewrite !length_app. simpl in *. lia.
Qed.

Lemma loads_dumps_flat_dict (d : list (str * pyval)) :
  Forall flat_entry d -> d <> [] ->
  Json.loads (Json.dumps (PDict d)) = Ok (PDict (Json.dict_of_pairs d)).
Proof.
  intros Hd Hne. rewrite dumps_dict. unfold Json.loads, Json.depth.
  cbn [app startswith]. change (123 =? 0xFEFF) with false. cbn [andb].
  cbv iota.
  change (Json.skip_ws (123 :: dumps_members d ++ [125]))
    with (123 :: dumps_members d ++ [125]).
  rewrite scan_once_S. unfold Json.scan_value, Json.JSONObject.
  change (123 =? 34) with false.
  change (123 =? 123) with true. cbv iota.
  rewrite skip_ws_starts by (apply dumps_members_starts; exact Hne).
  pose proof (dumps_members_starts d [125] Hne) as Hs.
  pose proof (dumps_members_length d) as Hlen.
  destruct (dumps_members d ++ [125]) as [|c1 t1] eqn:E; [contradiction|].
  assert (Hc : c1 = 34).
  { destruct d as [|[k x] [|kv t]]; [congruence| |]; cbn in E; congruence. }
  subst c1. change (34 =? 125) with false. cbv iota.
  rewrite <- E.
  rewrite (members_dumps d Hd Hne).
  - reflexivity.
  - cbn [length]. rewrite length_app. lia.
Qed.

Lemma from_dict_to_dict (m : Message) : from_dict (to_dict m) = Ok m.
Proof. destruct m; reflexivity. Qed.

Lemma valid_text_thread (v : pyval) : valid_text v -> valid_thread v.
Proof. destruct v; simpl; tauto. Qed.

Lemma valid_str_lit_ascii (s : str) : ascii_text s -> valid_str s.
Proof.
  unfold ascii_text, valid_str. apply Forall_impl. intros c Hc.
  split; [lia|]. unfold is_surrogate. apply andb_false_iff. left.
  apply N.leb_gt. lia.
Qed.

Lemma loads_dumps_message (m : Message) :
  valid_envelope m -> Json.loads (Json.dumps (to_dict m)) = Ok (to_dict m).
Proof.
  intros [Hi Hf Ht Hc Hs Hk Hth].
  unfold to_dict. rewrite loads_dumps_flat_dict.
  - reflexivity.
  - repeat apply Forall_cons; try apply Forall_nil; split;
      try (apply valid_text_thread; assumption);
      try assumption;
      try (apply valid_str_lit_ascii; repeat apply Forall_cons;
           try apply Forall_nil; reflexivity).
    destruct Hk as [-> | [-> | ->]]; cbn [snd valid_thread];
      apply valid_str_lit_ascii; repeat apply Forall_cons;
      try apply Forall_nil; reflexivity.
  - discriminate.
Qed.

End TextFacts.

(* ------------------------------------------------------------------ *)
(** ** The fuel of [scan_once] *)

Section FuelFacts.

Local Arguments N.eqb : simpl never.
Local Arguments N.leb : simpl never.
Local Arguments N.ltb : simpl never.
Local Arguments N.add : simpl never.
Local Arguments N.sub : simpl never.
Local Arguments N.mul : simpl never.
Local Arguments N.lor : simpl never.
Local Arguments N.shiftl : simpl never.

(** Split every [match] and [if] of a hypothesis. *)
Ltac split_matches H :=
  repeat match type of H with
    | context [match ?e with _ => _ end] =>
        let E := fresh "E" in destruct e eqn:E; try discriminate H
    end.

Lemma skip_ws_length (s : str) : (length (Json.skip_ws s) <= length s)%nat.
Proof.
  induction s as [|c s IH]; simpl; [lia|].
  destruct (Json.is_ws c); simpl; lia.
Qed.

Lemma scanstring_length (n : nat) :
  forall (s x r : str),
    (length s <= n)%nat -> Json.scanstring s = Some (x, r) ->
    (length r < length s)%nat.
Proof.
  induction n as [|n IH]; intros s x r Hlen Hscan.
  - destruct s; [discriminate | simpl in Hlen; lia].
  - destruct s as [|c t]; [discriminate|].
    cbn [Json.scanstring] in Hscan. unfold Json.push in Hscan.
    split_matches Hscan; injection Hscan as <- <-; cbn [length] in *;
      try lia;
      match goal with
      | E : Json.scanstring ?t = Some (_, ?r) |- _ =>
          apply IH in E; cbn [length] in *; lia
      end.
Qed.

Lemma span_digits_length (s ds r : str) :
  Json.span_digits s = (ds, r) -> (length r <= length s)%nat.
Proof.
  revert ds r. induction s as [|c s IH]; intros ds r H; simpl in H.
  - injection H as <- <-. simpl; lia.
  - destruct (Json.is_digit c).
    + destruct (Json.span_digits s) as [ds' r'] eqn:E.
      injection H as <- <-. specialize (IH _ _ eq_refl). simpl; lia.
    + injection H as <- <-. simpl; lia.
Qed.

Lemma scan_number_length (s r : str) (v : pyval) :
  Json.scan_number s = Some (v, r) -> (length r < length s)%nat.
Proof.
  unfold Json.scan_number. intros H.
  repeat match goal with
    | H : context [Json.span_digits ?t] |- _ =>
        let E := fresh "E" in
        destruct (Json.span_digits t) eqn:E; apply span_digits_length in E
    | H : context [match ?e with _ => _ end] |- _ =>
        destruct e eqn:?; try discriminate
    | H : (_, _) = (_, _) |- _ => inversion H; subst; clear H
    | H : Some _ = Some _ |- _ => inversion H; subst; clear H
    end;
    cbn [length] in *; lia.
Qed.

Lemma startswith_length (p s : str) :
  startswith p s = true ->
  (length (skipn (length p) s) + length p = length s)%nat.
Proof.
  revert s. induction p as [|c p IH]; intros s H; [simpl; lia|].
  destruct s as [|d s]; [discriminate|]. simpl in H.
  apply andb_true_iff in H. destruct H as [_ H].
  apply IH in H. simpl. lia.
Qed.

Lemma word_length (w : string) (s r : str) :
  lit w <> [] -> Json.word w s = Some r -> (length r < length s)%nat.
Proof.
  unfold Json.word. intros Hw H.
  destruct (startswith (lit w) s) eqn:E; [|discriminate].
  injection H as <-. apply startswith_length in E.
  destruct (lit w); [congruence | simpl in *; lia].
Qed.

Lemma scan_atom_length (s r : str) (v : pyval) :
  Json.scan_atom s = Some (v, r) -> (length r < length s)%nat.
Proof.
  unfold Json.scan_atom. intros H.
  destruct (Json.word "null" s) eqn:E1;
    [injection H as <- <-; apply word_length in E1;
     [exact E1 | discriminate]|].
  destruct (Json.word "true" s) eqn:E2;
    [injection H as <- <-; apply word_length in E2;
     [exact E2 | discriminate]|].
  destruct (Json.word "false" s) eqn:E3;
    [injection H as <- <-; apply word_length in E3;
     [exact E3 | discriminate]|].
  destruct (Json.scan_number s) as [[v' r']|] eqn:E4;
    [injection H as <- <-; apply scan_number_length in E4; exact E4|].
  destruct (Json.word "NaN" s) eqn:E5;
    [injection H as <- <-; apply word_length in E5;
     [exact E5 | discriminate]|].
  destruct (Json.word "Infinity" s) eqn:E6;
    [injection H as <- <-; apply word_length in E6;
     [exact E6 | discriminate]|].
  destruct (Json.word "-Infinity" s) eqn:E7;
    [injection H as <- <-; apply word_length in E7;
     [exact E7 | discriminate]|].
  discriminate.
Qed.

(** What is left after a value, the members of an object or the elements
    of an array is shorter than the text that was read. *)
Lemma scan_once_length (fuel : nat) :
  (forall (s r : str) (v : pyval),
      Json.scan_once fuel s = Some (v, r) -> (length r < length s)%nat)
  /\ (forall (s r : str) (acc ps : list (str * pyval)),
        Json.members fuel s acc = Some (ps, r) -> (length r < length s)%nat)
  /\ (forall (s r : str) (acc xs : list pyval),
        Json.elements fuel s acc = Some (xs, r) -> (length r < length s)%nat).
Proof.
  induction fuel as [|fuel (IHv & IHm & IHe)];
    [repeat split; intros; discriminate|].
  repeat split.
  - intros s r v H. rewrite scan_once_S in H. unfold Json.scan_value in H.
    destruct s as [|c t]; [discriminate|].
    destruct (c =? 34).
    { destruct (Json.scanstring t) as [[x rest]|] eqn:E; [|discriminate].
      injection H as <- <-.
      apply (scanstring_length (length t)) in E; [cbn [length]; lia | lia]. }
    destruct (c =? 123).
    { unfold Json.JSONObject in H. pose proof (skip_ws_length t) as Hws.
      destruct (Json.skip_ws t) as [|c1 t1]; [discriminate|].
      destruct (c1 =? 125); [injection H as <- <-; cbn [length] in *; lia|].
      destruct (Json.members fuel (c1 :: t1) []) as [[ps rest]|] eqn:E;
        [|discriminate].
      injection H as <- <-. apply IHm in E. cbn [length] in *; lia. }
    destruct (c =? 91).
    { unfold Json.JSONArray in H. pose proof (skip_ws_length t) as Hws.
      destruct (Json.skip_ws t) as [|c1 t1]; [discriminate|].
      destruct (c1 =? 93); [injection H as <- <-; cbn [length] in *; lia|].
      destruct (Json.elements fuel (c1 :: t1) []) as [[xs rest]|] eqn:E;
        [|discriminate].
      injection H as <- <-. apply IHe in E. cbn [length] in *; lia. }
    apply scan_atom_length in H. exact H.
  - intros s r acc ps H. rewrite members_S in H. unfold Json.member in H.
    destruct s as [|q t]; [discriminate|].
    destruct (q =? 34); [|discriminate].
    destruct (Json.scanstring t) as [[k r1]|] eqn:E1; [|discriminate].
    apply (scanstring_length (length t)) in E1; [|lia].
    pose proof (skip_ws_length r1) as Hw1.
    destruct (Json.skip_ws r1) as [|colon r2]; [discriminate|].
    destruct (colon =? 58); [|discriminate].
    pose proof (skip_ws_length r2) as Hw2.
    destruct (Json.scan_once fuel (Json.skip_ws r2)) as [[v r3]|] eqn:E2;
      [|discriminate].
    apply IHv in E2.
    pose proof (skip_ws_length r3) as Hw3.
    destruct (Json.skip_ws r3) as [|d r4]; [discriminate|].
    destruct (d =? 125); [injection H as <- <-; cbn [length] in *; lia|].
    destruct (d =? 44); [|discriminate].
    apply IHm in H. pose proof (skip_ws_length r4) as Hw4.
    cbn [length] in *; lia.
  - intros s r acc xs H. rewrite elements_S in H. unfold Json.element in H.
    destruct (Json.scan_once fuel s) as [[v r1]|] eqn:E1; [|discriminate].
    apply IHv in E1.
    pose proof (skip_ws_length r1) as Hw1.
    destruct (Json.skip_ws r1) as [|d r2]; [discriminate|].
    destruct (d =? 93); [injection H as <- <-; cbn [length] in *; lia|].
    destruct (d =? 44); [|discriminate].
    apply IHe in H. pose proof (skip_ws_length r2) as Hw2.
    cbn [length] in *; lia.
Qed.

(** Beyond twice the length of the text, more fuel changes nothing: a
    text is never refused for want of it. *)
Lemma scan_once_stable (fuel : nat) :
  (forall s : str,
      (2 * length s < fuel)%nat ->
      Json.scan_once fuel s = Json.scan_once (S fuel) s)
  /\ (forall (s : str) (acc : list (str * pyval)),
        (2 * length s < fuel)%nat ->
        Json.members fuel s acc = Json.members (S fuel) s acc)
  /\ (forall (s : str) (acc : list pyval),
        (2 * length s + 1 < fuel)%nat ->
        Json.elements fuel s acc = Json.elements (S fuel) s acc).
Proof.
  induction fuel as [|fuel (IHv & IHm & IHe)];
    [repeat split; intros; lia|].
  destruct (scan_once_length fuel) as (Lv & Lm & Le).
  repeat split.
  - intros s Hs. rewrite (scan_once_S fuel), (scan_once_S (S fuel)).
    unfold Json.scan_value.
    destruct s as [|c t]; [reflexivity|].
    destruct (c =? 34); [reflexivity|].
    destruct (c =? 123).
    { unfold Json.JSONObject. pose proof (skip_ws_length t) as Hws.
      destruct (Json.skip_ws t) as [|c1 t1]; [reflexivity|].
      destruct (c1 =? 125); [reflexivity|].
      rewrite IHm by (cbn [length] in *; lia). reflexivity. }
    destruct (c =? 91); [|reflexivity].
    unfold Json.JSONArray. pose proof (skip_ws_length t) as Hws.
    destruct (Json.skip_ws t) as [|c1 t1]; [reflexivity|].
    destruct (c1 =? 93); [reflexivity|].
    rewrite IHe by (cbn [length] in *; lia). reflexivity.
  - intros s acc Hs. rewrite (members_S fuel), (members_S (S fuel)).
    unfold Json.member.
    destruct s as [|q t]; [reflexivity|].
    destruct (q =? 34); [|reflexivity].
    destruct (Json.scanstring t) as [[k r1]|] eqn:E1; [|reflexivity].
    apply (scanstring_length (length t)) in E1; [|lia].
    pose proof (skip_ws_length r1) as Hw1.
    destruct (Json.skip_ws r1) as [|colon r2]; [reflexivity|].
    destruct (colon =? 58); [|reflexivity].
    pose proof (skip_ws_length r2) as Hw2.
    rewrite <- IHv by (cbn [length] in *; lia).
    destruct (Json.scan_once fuel (Json.skip_ws r2)) as [[v r3]|] eqn:E2;
      [|reflexivity].
    apply Lv in E2.
    pose proof (skip_ws_length r3) as Hw3.
    destruct (Json.skip_ws r3) as [|d r4]; [reflexivity|].
    destruct (d =? 125); [reflexivity|].
    destruct (d =? 44); [|reflexivity].
    pose proof (skip_ws_length r4) as Hw4.
    apply IHm. cbn [length] in *; lia.
  - intros s acc Hs. rewrite (elements_S fuel), (elements_S (S fuel)).
    unfold Json.element.
    rewrite <- IHv by lia.
    destruct (Json.scan_once fuel s) as [[v r1]|] eqn:E1; [|reflexivity].
    apply Lv in E1.
    pose proof (skip_ws_length r1) as Hw1.
    destruct (Json.skip_ws r1) as [|d r2]; [reflexivity|].
    destruct (d =? 93); [reflexivity|].
    destruct (d =? 44); [|reflexivity].
    pose proof (skip_ws_length r2) as Hw2.
    apply IHe. cbn [length] in *; lia.
Qed.

Lemma scan_once_enough (s : str) (fuel : nat) :
  (2 * length s < fuel)%nat ->
  Json.scan_once fuel s = Json.scan_once (S (2 * length s)) s.
Proof.
  intros H.
  replace fuel with ((fuel - S (2 * length s)) + S (2 * length s))%nat by lia.
  generalize (fuel - S (2 * length s))%nat as k.
  induction k as [|k IH]; [reflexivity|].
  cbn [Nat.add]. rewrite <- IH.
  symmetry. apply (proj1 (scan_once_stable _)). lia.
Qed.

(** [loads] would read the same with any more fuel. *)
Lemma loads_depth (s : str) (fuel : nat) :
  (Json.depth s <= fuel)%nat ->
  Json.scan_once fuel (Json.skip_ws s)
  = Json.scan_once (Json.depth s) (Json.skip_ws s).
Proof.
  intros H. unfold Json.depth in *.
  pose proof (skip_ws_length s) as Hws.
  rewrite (scan_once_enough (Json.skip_ws s) fuel) by lia.
  rewrite (scan_once_enough (Json.skip_ws s) (S (S (2 * length s)))) by lia.
  reflexivity.
Qed.

End FuelFacts.

Section EnvelopeFacts.

Lemma scalarb_sound (c : N) : scalarb c = true -> scalar c.
Proof.
  unfold scalarb, scalar. rewrite andb_true_iff, negb_true_iff, N.ltb_lt.
  tauto.
Qed.

Lemma valid_strb_sound (s : str) : valid_strb s = true -> valid_str s.
Proof.
  unfold valid_strb, valid_str. rewrite forallb_forall, Forall_forall.
  intros H c Hc. apply scalarb_sound, H, Hc.
Qed.

Lemma valid_textb_sound (v : pyval) : valid_textb v = true -> valid_text v.
Proof. destruct v; simpl; try discriminate. apply valid_strb_sound. Qed.

Lemma valid_threadb_sound (v : pyval) :
  valid_threadb v = true -> valid_thread v.
Proof. destruct v; simpl; try discriminate; auto using valid_strb_sound. Qed.

Lemma eq_str_eq (v : pyval) (s : str) : eq_str v s = true <-> v = PStr s.
Proof.
  destruct v; simpl; try (split; discriminate).
  rewrite str_eqb_eq. split; [intros ->; reflexivity | congruence].
Qed.

Lemma valid_kindb_sound (v : pyval) : valid_kindb v = true -> valid_kind v.
Proof.
  unfold valid_kindb, valid_kind. rewrite !orb_true_iff, !eq_str_eq. tauto.
Qed.

Lemma valid_envelopeb_sound (m : Message) :
  valid_envelopeb m = true -> valid_envelope m.
Proof.
  unfold valid_envelopeb. rewrite !andb_true_iff.
  intros [[[[[[Hi Hf] Ht] Hc] Hs] Hk] Hth].
  constructor; auto using valid_textb_sound, valid_kindb_sound,
    valid_threadb_sound.
Qed.

Lemma dumps_textual_ascii (v : pyval) :
  textual v -> ascii_text (Json.dumps v).
Proof.
  destruct v; simpl textual; try contradiction; intros _.
  - repeat apply Forall_cons; try apply Forall_nil; reflexivity.
  - apply quoted_ascii.
Qed.

Lemma ascii_lit_cons (c : N) (s : str) :
  c < 128 -> ascii_text s -> ascii_text (c :: s).
Proof. intros; apply Forall_cons; assumption. Qed.

Lemma dumps_message_ascii (m : Message) :
  textual_fields m -> ascii_text (Json.dumps (to_dict m)).
Proof.
  intros [Hi Hf Ht Hc Hs Hk Hth].
  unfold to_dict. rewrite dumps_dict. cbn [dumps_members].
  repeat first
    [ apply Forall_nil
    | apply ascii_lit_cons; [reflexivity|]
    | apply ascii_text_app
    | apply quoted_ascii
    | apply dumps_textual_ascii; assumption
    | progress cbn [app lit list_ascii_of_string map] ].
Qed.

Lemma encode_textual (m : Message) :
  textual_fields m -> encode m = Ok (Json.dumps (to_dict m)).
Proof.
  intros Hm. unfold encode.
  rewrite utf8_encode_ascii by (apply dumps_message_ascii; exact Hm).
  reflexivity.
Qed.

Lemma valid_thread_textual (v : pyval) : valid_thread v -> textual v.
Proof. destruct v; simpl; tauto. Qed.

Lemma valid_kind_textual (v : pyval) : valid_kind v -> textual v.
Proof. intros [-> | [-> | ->]]; exact I. Qed.

Lemma valid_textual (m : Message) : valid_envelope m -> textual_fields m.
Proof.
  intros [Hi Hf Ht Hc Hs Hk Hth].
  constructor;
    auto using valid_thread_textual, valid_text_thread, valid_kind_textual.
Qed.

Lemma decode_dumps (m : Message) :
  valid_envelope m -> decode (Json.dumps (to_dict m)) = Ok m.
Proof.
  intros Hm. unfold decode.
  rewrite utf8_decode_ascii
    by (apply dumps_message_ascii, valid_textual; exact Hm).
  rewrite loads_dumps_message by exact Hm.
  apply from_dict_to_dict.
Qed.

End EnvelopeFacts.

(* ------------------------------------------------------------------ *)
(** ** Payloads that do not decode, and payloads that do *)

(** Bytes that are no UTF-8, text that is no JSON, a value that is no
    object, an object that lacks a field, an object with a field too
    many: none decodes. *)
Example decode_not_utf8 : decode [0xFF] = Raise UnicodeDecodeError.
Proof. reflexivity. Qed.

Example decode_not_json : decode (lit "{not json") = Raise JSONDecodeError.
Proof. vm_compute. reflexivity. Qed.

Example decode_no_object : decode (lit "[1, 2]") = Raise TypeError.
Proof. vm_compute. reflexivity. Qed.

Example decode_missing_field :
  decode (Json.dumps (PDict [(lit "id", PStr (lit "1"))])) = Raise TypeError.
Proof. vm_compute. reflexivity. Qed.

Example decode_unknown_field :
  decode (Json.dumps (PDict ([(lit "colour", PStr (lit "red"))]
                             ++ match to_dict demo_first with
                                | PDict d => d
                                | _ => []
                                end)))
  = Raise TypeError.
Proof. vm_compute. reflexivity. Qed.

(** [from_dict] checks no types: numbers where text is expected decode,
    and the viewer keeps the result, while the inbox processor fails on
    slicing the content and drops the message. *)
Example decode_numbers :
  let data :=
    Json.dumps (PDict [(lit "id", PInt 1); (lit "from_user", PInt 2);
                       (lit "to_user", PInt 3); (lit "content", PInt 4);
                       (lit "timestamp", PInt 5)]) in
  decode data
  = Ok (mkMessage (PInt 1) (PInt 2) (PInt 3) (PInt 4) (PInt 5)
                  (PStr (lit "dm")) PNone)
  /\ MessageViewer.messages
       (fst (run (MessageViewer.message_callback false data)
                 (MessageViewer.__init__, demo_world)))
     = [mkMessage (PInt 1) (PInt 2) (PInt 3) (PInt 4) (PInt 5)
                  (PStr (lit "dm")) PNone]
  /\ log (snd (run (AgentMessageQueue.message_callback data)
                   (demo_roy, demo_world)))
     = [Error "Error processing message" (Some TypeError)]
  /\ published (snd (run (AgentMessageQueue.message_callback data)
                         (demo_roy, demo_world)))
     = [].
Proof. cbv zeta. repeat split; vm_compute; reflexivity. Qed.

(* ------------------------------------------------------------------ *)
(** ** The codec *)

(** C5 (codec round trip).  For every valid envelope [E] (text in every
    field, one of the three kinds, a thread id that is absent or text),
    serialising [Message.to_dict E] with [json.dumps], parsing the text
    with [json.loads] and applying [Message.from_dict] gives [E] back. *)
Theorem codec_round_trip (E : Message) :
  valid_envelope E ->
  exists v : pyval,
    Json.loads (Json.dumps (to_dict E)) = Ok v /\ from_dict v = Ok E.
Proof.
  intros HE. exists (to_dict E). split.
  - apply loads_dumps_message; exact HE.
  - apply from_dict_to_dict.
Qed.

Lemma codec_round_trip_witness :
  valid_envelope demo_first
  /\ exists v : pyval,
       Json.loads (Json.dumps (to_dict demo_first)) = Ok v
       /\ from_dict v = Ok demo_first.
Proof.
  split.
  - apply valid_envelopeb_sound. vm_compute. reflexivity.
  - apply (codec_round_trip demo_first).
    apply valid_envelopeb_sound. vm_compute. reflexivity.
Defined.

Section ConversationFacts.

Lemma subseq_filter {A : Type} (f : A -> bool) (l : list A) :
  subseq (filter f l) l.
Proof.
  induction l as [|x l IH]; simpl; [constructor|].
  destruct (f x); constructor; exact IH.
Qed.

Lemma in_conversation (x y : str) (msg : Message) :
  (eq_str (from_user msg) x && eq_str (to_user msg) y
   || eq_str (from_user msg) y && eq_str (to_user msg) x) = true
  <-> between x y msg.
Proof.
  unfold between. rewrite orb_true_iff, !andb_true_iff, !eq_str_eq.
  reflexivity.
Qed.

End ConversationFacts.

(* ------------------------------------------------------------------ *)
(** ** Conversations *)

(** C6 (conversation symmetry).  For all identities [x], [y] and every
    history, [get_conversation x y] equals [get_conversation y x]; every
    envelope returned was sent by one of the two to the other; the result
    is the history with envelopes left out, the others in their order of
    insertion; and no envelope of the pair is left out. *)
Theorem conversation_symmetric (self : MessageRouter.t) (x y : str) :
  MessageRouter.get_conversation self x y
  = MessageRouter.get_conversation self y x
  /\ Forall (between x y) (MessageRouter.get_conversation self x y)
  /\ subseq (MessageRouter.get_conversation self x y)
            (MessageRouter.message_history self)
  /\ (forall msg : Message,
        In msg (MessageRouter.message_history self) ->
        between x y msg ->
        In msg (MessageRouter.get_conversation self x y)).
Proof.
  unfold MessageRouter.get_conversation. repeat split.
  - apply filter_ext. intros msg. apply orb_comm.
  - apply Forall_forall. intros msg Hin. apply filter_In in Hin.
    apply in_conversation, Hin.
  - apply subseq_filter.
  - intros msg Hin Hb. apply filter_In. split; [exact Hin|].
    apply in_conversation, Hb.
Qed.

(** Run the monadic code of the components, leaving text alone. *)
Ltac exec :=
  cbv beta iota zeta delta
    [bind in_world get_self set_self get_world utcnow ret raise try_except
     publish_message of_outcome nc_publish nc_subscribe nats_connect
     logger_info logger_error print fst snd negb run
     NATS_NAMESPACE py_repr NATS_AVAILABLE broker_up faults published
     subscriptions clock ticks log stdout logged
     with_faults with_published with_subscriptions with_ticks with_log
     with_stdout
     MessageRouter.nc MessageRouter.message_history MessageRouter.connect
     MessageViewer.nc MessageViewer.messages MessageViewer.connect
     AgentMessageQueue.agent_name AgentMessageQueue.inbox_subject
     AgentMessageQueue.outbox_subject AgentMessageQueue.message_handler
     AgentMessageQueue.nc AgentMessageQueue.subscription
     AgentMessageQueue.with_nc AgentMessageQueue.with_subscription
     AgentMessageQueue.connect].

(* ------------------------------------------------------------------ *)
(** ** Running the components *)

Section RunFacts.

Lemma skipn_app_exact {A : Type} (l r : list A) : skipn (length l) (l ++ r) = r.
Proof. induction l as [|x l IH]; [reflexivity | exact IH]. Qed.

Lemma new_publications_app (w w' : World) (l : list (str * bytes)) :
  published w' = published w ++ l -> new_publications w w' = l.
Proof. intros E. unfold new_publications. rewrite E. apply skipn_app_exact. Qed.

Lemma textual_dm (i f t c s : str) :
  textual_fields (mkMessage (PStr i) (PStr f) (PStr t) (PStr c) (PStr s)
                            (PStr (lit "dm")) PNone).
Proof. constructor; exact I. Qed.

Lemma textual_reply (i f t c s : str) (th : pyval) :
  textual th ->
  textual_fields (mkMessage (PStr i) (PStr f) (PStr t) (PStr c) (PStr s)
                            (PStr (lit "dm")) th).
Proof. intros H; constructor; solve [exact I | exact H]. Qed.

(** The feed and an inbox are different subjects. *)
Lemma feed_is_no_inbox (ns A : str) :
  str_eqb (ns ++ lit ".messages.all") (ns ++ lit ".agents." ++ A ++ lit ".inbox")
  = false.
Proof.
  destruct (str_eqb _ _) eqn:E; [|reflexivity].
  apply str_eqb_eq, app_inv_head in E. discriminate E.
Qed.

Lemma startswith_app (p s : str) : startswith p (p ++ s) = true.
Proof.
  induction p as [|c p IH]; [reflexivity|].
  simpl. rewrite N.eqb_refl. exact IH.
Qed.

Lemma no_fault_cases (w : World) :
  no_fault 2 w ->
  faults w = [] \/ faults w = [false]
  \/ exists rest, faults w = false :: false :: rest.
Proof.
  unfold no_fault. destruct (faults w) as [|f1 [|f2 rest]]; simpl; intros H.
  - left; reflexivity.
  - inversion H; subst. right; left; reflexivity.
  - inversion H as [|? ? H1 H2]; subst. inversion H2; subst.
    right; right; eexists; reflexivity.
Qed.

End RunFacts.

(* ------------------------------------------------------------------ *)
(** ** The router *)

(** C1 (routing correctness).  For every human id [H], agent id [A] and
    content [C], [send_dm H A C], run by a router that is connected or can
    connect and whose next two publishes do not fail, publishes exactly
    two payloads: one to the inbox subject of [A] and one to the feed
    [N.messages.all].  Both are the encoding of the one envelope
    returned, whose sender is [H], whose recipient is ["agent_" ++ A] and
    whose content is [C]. *)
Theorem send_dm_routing (self : MessageRouter.t) (w : World) (H A C : str) :
  can_connect (MessageRouter.nc self) w ->
  no_fault 2 w ->
  exists (m : Message) (payload : bytes) (self' : MessageRouter.t)
         (w' : World),
    MessageRouter.send_dm H A C (self, w) = (Ok m, (self', w'))
    /\ from_user m = PStr H
    /\ to_user m = PStr (lit "agent_" ++ A)
    /\ content m = PStr C
    /\ encode m = Ok payload
    /\ new_publications w w'
       = [(NATS_NAMESPACE w ++ lit ".agents." ++ A ++ lit ".inbox", payload);
          (NATS_NAMESPACE w ++ lit ".messages.all", payload)]
    /\ payloads_on (NATS_NAMESPACE w ++ lit ".agents." ++ A ++ lit ".inbox")
                   (new_publications w w') = [payload]
    /\ payloads_on (NATS_NAMESPACE w ++ lit ".messages.all")
                   (new_publications w w') = [payload].
Proof.
  intros Hconn Hfault.
  set (m := mkMessage (PStr (lit "msg_" ++ posix (clock w (ticks w))))
                      (PStr H) (PStr (lit "agent_" ++ A)) (PStr C)
                      (PStr (iso (clock w (S (ticks w)))))
                      (PStr (lit "dm")) PNone).
  assert (Henc : encode m = Ok (Json.dumps (to_dict m)))
    by apply encode_textual, textual_dm.
  assert (Hpubs :
    exists self' w',
      MessageRouter.send_dm H A C (self, w) = (Ok m, (self', w'))
      /\ published w'
         = published w
           ++ [(NATS_NAMESPACE w ++ lit ".agents." ++ A ++ lit ".inbox",
                Json.dumps (to_dict m));
               (NATS_NAMESPACE w ++ lit ".messages.all",
                Json.dumps (to_dict m))]).
  { subst m. revert Henc.
    destruct self as [nc hist].
    destruct w as [ns repr avail up fs pub subs clk tk lg out].
    apply no_fault_cases in Hfault. cbn [faults] in Hfault.
    unfold can_connect in Hconn. cbn [MessageRouter.nc NATS_AVAILABLE broker_up] in Hconn.
    cbn [clock ticks NATS_NAMESPACE published]. intros Henc.
    unfold MessageRouter.send_dm.
    destruct nc as [c|].
    - destruct Hfault as [-> | [-> | [rest ->]]];
        exec; rewrite !Henc; exec;
        do 2 eexists; (split; [reflexivity|]); exec;
        rewrite <- app_assoc; reflexivity.
    - destruct Hconn as [Hc | [-> ->]]; [congruence|].
      destruct Hfault as [-> | [-> | [rest ->]]];
        exec; rewrite !Henc; exec;
        do 2 eexists; (split; [reflexivity|]); exec;
        rewrite <- app_assoc; reflexivity. }
  destruct Hpubs as (self' & w' & Hrun & Hpub).
  apply new_publications_app in Hpub.
  exists m, (Json.dumps (to_dict m)), self', w'.
  repeat split; try assumption; try reflexivity.
  - rewrite Hpub. unfold payloads_on. cbn [filter fst snd map].
    rewrite str_eqb_refl, feed_is_no_inbox. reflexivity.
  - rewrite Hpub. unfold payloads_on. cbn [filter fst snd map].
    rewrite str_eqb_refl, str_eqb_sym, feed_is_no_inbox. reflexivity.
Qed.

(** C1 at the first DM of [demo]: alice writes to sylvia. *)
Lemma send_dm_routing_witness :
  can_connect (MessageRouter.nc MessageRouter.__init__) demo_world
  /\ no_fault 2 demo_world
  /\ exists (m : Message) (payload : bytes) (self' : MessageRouter.t)
            (w' : World),
       MessageRouter.send_dm (lit "alice") (lit "sylvia") (lit "hello")
                             (MessageRouter.__init__, demo_world)
       = (Ok m, (self', w'))
       /\ from_user m = PStr (lit "alice")
       /\ to_user m = PStr (lit "agent_" ++ lit "sylvia")
       /\ content m = PStr (lit "hello")
       /\ encode m = Ok payload
       /\ new_publications demo_world w'
          = [(NATS_NAMESPACE demo_world ++ lit ".agents." ++ lit "sylvia"
              ++ lit ".inbox", payload);
             (NATS_NAMESPACE demo_world ++ lit ".messages.all", payload)]
       /\ payloads_on (NATS_NAMESPACE demo_world ++ lit ".agents."
                       ++ lit "sylvia" ++ lit ".inbox")
                      (new_publications demo_world w') = [payload]
       /\ payloads_on (NATS_NAMESPACE demo_world ++ lit ".messages.all")
                      (new_publications demo_world w') = [payload].
Proof.
  assert (Hc : can_connect (MessageRouter.nc MessageRouter.__init__) demo_world)
    by (right; split; reflexivity).
  assert (Hf : no_fault 2 demo_world) by (vm_compute; constructor).
  split; [exact Hc|]. split; [exact Hf|].
  exact (send_dm_routing MessageRouter.__init__ demo_world
           (lit "alice") (lit "sylvia") (lit "hello") Hc Hf).
Defined.

(** C10 (no atomicity).  [send_dm] publishes to the inbox, then appends to
    the history, then publishes to the feed, and rolls nothing back.  With
    [first] and [second] the outcomes scheduled for the next two publishes
    ([true]: the publish raises): if the inbox publish fails nothing was
    appended or published; if it succeeds and the feed publish fails, the
    call raises, yet the envelope is in the history and on the inbox
    subject; if both succeed the envelope is returned. *)
Theorem send_dm_not_atomic (self : MessageRouter.t) (w : World)
  (H A C : str) (first second : bool) (rest : list bool) :
  MessageRouter.nc self <> None ->
  faults w = first :: second :: rest ->
  exists (m : Message) (payload : bytes) (r : outcome Message)
         (self' : MessageRouter.t) (w' : World),
    MessageRouter.send_dm H A C (self, w) = (r, (self', w'))
    /\ from_user m = PStr H
    /\ to_user m = PStr (lit "agent_" ++ A)
    /\ content m = PStr C
    /\ encode m = Ok payload
    /\ match first, second with
       | true, _ =>
           r = Raise PublishError
           /\ MessageRouter.message_history self'
              = MessageRouter.message_history self
           /\ new_publications w w' = []
       | false, true =>
           r = Raise PublishError
           /\ MessageRouter.message_history self'
              = MessageRouter.message_history self ++ [m]
           /\ new_publications w w'
              = [(NATS_NAMESPACE w ++ lit ".agents." ++ A ++ lit ".inbox",
                  payload)]
       | false, false =>
           r = Ok m
           /\ MessageRouter.message_history self'
              = MessageRouter.message_history self ++ [m]
           /\ new_publications w w'
              = [(NATS_NAMESPACE w ++ lit ".agents." ++ A ++ lit ".inbox",
                  payload);
                 (NATS_NAMESPACE w ++ lit ".messages.all", payload)]
       end.
Proof.
  intros Hnc Hfaults.
  set (m := mkMessage (PStr (lit "msg_" ++ posix (clock w (ticks w))))
                      (PStr H) (PStr (lit "agent_" ++ A)) (PStr C)
                      (PStr (iso (clock w (S (ticks w)))))
                      (PStr (lit "dm")) PNone).
  assert (Henc : encode m = Ok (Json.dumps (to_dict m)))
    by apply encode_textual, textual_dm.
  exists m, (Json.dumps (to_dict m)).
  subst m. revert Henc.
  destruct self as [[c|] hist]; [clear Hnc | exfalso; apply Hnc; reflexivity].
  destruct w as [ns repr avail up fs pub subs clk tk lg out].
  cbn [faults] in Hfaults. subst fs.
  cbn [clock ticks NATS_NAMESPACE MessageRouter.message_history]. intros Henc.
  unfold MessageRouter.send_dm, new_publications.
  destruct first, second; exec; rewrite ?Henc; exec;
    do 3 eexists; (split; [reflexivity|]);
    repeat (split; [first [reflexivity | exact Henc]|]);
    repeat split; try reflexivity;
    rewrite <- ?app_assoc; try apply skipn_app_exact;
    try (rewrite <- (app_nil_r pub) at 2; apply skipn_app_exact).
Qed.

(** C10 where the feed publish fails after the inbox publish went out. *)
Lemma send_dm_not_atomic_witness :
  MessageRouter.nc (MessageRouter.mk (Some Client) []) <> None
  /\ faults (with_faults [false; true] demo_world) = false :: true :: []
  /\ exists (m : Message) (payload : bytes) (self' : MessageRouter.t)
            (w' : World),
       MessageRouter.send_dm (lit "alice") (lit "sylvia") (lit "hello")
         (MessageRouter.mk (Some Client) [],
          with_faults [false; true] demo_world)
       = (Raise PublishError, (self', w'))
       /\ encode m = Ok payload
       /\ MessageRouter.message_history self' = [m]
       /\ new_publications (with_faults [false; true] demo_world) w'
          = [(lit "themultiverse.agents.sylvia.inbox", payload)].
Proof.
  assert (Hnc : MessageRouter.nc (MessageRouter.mk (Some Client) []) <> None)
    by discriminate.
  split; [exact Hnc|]. split; [reflexivity|].
  destruct (send_dm_not_atomic (MessageRouter.mk (Some Client) [])
              (with_faults [false; true] demo_world)
              (lit "alice") (lit "sylvia") (lit "hello") false true []
              Hnc eq_refl)
    as (m & payload & r & self' & w' & Hrun & _ & _ & _ & Henc & Hr & Hh & Hp).
  exists m, payload, self', w'. subst r.
  repeat split; assumption.
Defined.

(* ------------------------------------------------------------------ *)
(** ** Subjects *)

Section SubjectFacts.

Lemma inbox_is_no_outbox (a b : str) :
  a ++ lit ".inbox" <> b ++ lit ".outbox".
Proof.
  intros E. apply (f_equal (@rev N)) in E.
  rewrite !rev_app_distr in E. discriminate E.
Qed.

(** The subjects of one namespace name their entity. *)
Lemma subject_injective (ns : str) (e1 e2 : entity) :
  subject ns e1 = subject ns e2 -> e1 = e2.
Proof.
  destruct e1 as [a|a|h|], e2 as [b|b|k|]; cbn [subject]; intros E;
    apply app_inv_head in E; try discriminate E; try reflexivity.
  - apply app_inv_head, app_inv_tail in E. congruence.
  - apply app_inv_head in E. apply inbox_is_no_outbox in E. contradiction.
  - apply app_inv_head in E. symmetry in E.
    apply inbox_is_no_outbox in E. contradiction.
  - apply app_inv_head, app_inv_tail in E. congruence.
  - apply app_inv_head in E. congruence.
Qed.

End SubjectFacts.

(* ------------------------------------------------------------------ *)
(** ** The inbox processor *)

(** C8 (two publishes per send).  For every call
    [send_message to text thread] on the processor of persona [P] (built
    by [__init__], connected or able to connect, the next two publishes
    not failing), one envelope is built, with sender ["agent_" ++ P], and
    exactly two publishes occur, both carrying its encoding, hence the
    same id: the first to the inbox subject of the recipient agent when
    [to] starts with ["agent_"] (the agent id being [to] with ["agent_"]
    removed, as [str.replace] does), else to [N.messages.dm.to]; the
    second to the outbox subject of [P]. *)
Theorem send_message_publishes_twice (self : AgentMessageQueue.t) (w : World)
  (to text : str) (thread : pyval) :
  well_formed w self ->
  can_connect (AgentMessageQueue.nc self) w ->
  no_fault 2 w ->
  textual thread ->
  exists (m : Message) (payload : bytes) (self' : AgentMessageQueue.t)
         (w' : World),
    AgentMessageQueue.send_message (PStr to) text thread (self, w)
    = (Ok tt, (self', w'))
    /\ from_user m = PStr (lit "agent_" ++ AgentMessageQueue.agent_name self)
    /\ to_user m = PStr to
    /\ content m = PStr text
    /\ thread_id m = thread
    /\ encode m = Ok payload
    /\ new_publications w w'
       = [(if startswith (lit "agent_") to
           then NATS_NAMESPACE w ++ lit ".agents."
                ++ replace (lit "agent_") [] to ++ lit ".inbox"
           else NATS_NAMESPACE w ++ lit ".messages.dm." ++ to,
           payload);
          (NATS_NAMESPACE w ++ lit ".agents."
           ++ AgentMessageQueue.agent_name self ++ lit ".outbox",
           payload)]
    /\ (forall A : str,
          to = lit "agent_" ++ A ->
          replace (lit "agent_") [] to = A ->
          payloads_on (NATS_NAMESPACE w ++ lit ".agents." ++ A ++ lit ".inbox")
                      (new_publications w w')
          = [payload]).
Proof.
  intros [_ Hout] Hconn Hfault Hth.
  set (m := mkMessage (PStr (lit "msg_" ++ posix (clock w (ticks w))))
                      (PStr (lit "agent_" ++ AgentMessageQueue.agent_name self))
                      (PStr to) (PStr text)
                      (PStr (iso (clock w (S (ticks w)))))
                      (PStr (lit "dm")) thread).
  assert (Henc : encode m = Ok (Json.dumps (to_dict m)))
    by (apply encode_textual, textual_reply; exact Hth).
  exists m, (Json.dumps (to_dict m)).
  enough (Hpubs :
    exists self' w',
      AgentMessageQueue.send_message (PStr to) text thread (self, w)
      = (Ok tt, (self', w'))
      /\ published w'
         = published w
           ++ [(if startswith (lit "agent_") to
                then NATS_NAMESPACE w ++ lit ".agents."
                     ++ replace (lit "agent_") [] to ++ lit ".inbox"
                else NATS_NAMESPACE w ++ lit ".messages.dm." ++ to,
                Json.dumps (to_dict m));
               (NATS_NAMESPACE w ++ lit ".agents."
                ++ AgentMessageQueue.agent_name self ++ lit ".outbox",
                Json.dumps (to_dict m))]).
  { destruct Hpubs as (self' & w' & Hrun & Hpub).
    apply new_publications_app in Hpub.
    exists self', w'. repeat split; try assumption; try reflexivity.
    intros A -> HA. rewrite Hpub, startswith_app, HA.
    unfold payloads_on. cbn [filter fst snd map].
    rewrite str_eqb_refl.
    replace (str_eqb _ _) with false; [reflexivity|].
    symmetry. destruct (str_eqb _ _) eqn:E; [|reflexivity].
    apply str_eqb_eq, app_inv_head, app_inv_head in E. symmetry in E.
    apply inbox_is_no_outbox in E. contradiction. }
  rewrite <- Hout. subst m. revert Henc.
  destruct self as [name inbox outbox handler nc sub].
  destruct w as [ns repr avail up fs pub subs clk tk lg out].
  apply no_fault_cases in Hfault. cbn [faults] in Hfault.
  unfold can_connect in Hconn.
  cbn [AgentMessageQueue.nc NATS_AVAILABLE broker_up] in Hconn.
  cbn [clock ticks NATS_NAMESPACE published AgentMessageQueue.agent_name
       AgentMessageQueue.outbox_subject].
  intros Henc. unfold AgentMessageQueue.send_message.
  destruct nc as [c|].
  - destruct Hfault as [-> | [-> | [rest ->]]];
      destruct (startswith (lit "agent_") to);
      exec; rewrite !Henc; exec;
      do 2 eexists; (split; [reflexivity|]); exec;
      rewrite <- app_assoc; reflexivity.
  - destruct Hconn as [Hc | [-> ->]]; [congruence|].
    destruct Hfault as [-> | [-> | [rest ->]]];
      destruct (startswith (lit "agent_") to);
      exec; rewrite !Henc; exec;
      do 2 eexists; (split; [reflexivity|]); exec;
      rewrite <- app_assoc; reflexivity.
Qed.

(** C8 where roy writes to the agent sylvia. *)
Lemma send_message_publishes_twice_witness :
  well_formed demo_listening demo_roy
  /\ can_connect (AgentMessageQueue.nc demo_roy) demo_listening
  /\ no_fault 2 demo_listening
  /\ textual PNone
  /\ exists (m : Message) (payload : bytes) (self' : AgentMessageQueue.t)
            (w' : World),
       AgentMessageQueue.send_message (PStr (lit "agent_sylvia")) (lit "hi")
                                      PNone (demo_roy, demo_listening)
       = (Ok tt, (self', w'))
       /\ from_user m = PStr (lit "agent_roy")
       /\ encode m = Ok payload
       /\ new_publications demo_listening w'
          = [(lit "themultiverse.agents.sylvia.inbox", payload);
             (lit "themultiverse.agents.roy.outbox", payload)]
       /\ payloads_on (lit "themultiverse.agents.sylvia.inbox")
                      (new_publications demo_listening w')
          = [payload].
Proof.
  assert (Hwf : well_formed demo_listening demo_roy) by (split; reflexivity).
  assert (Hc : can_connect (AgentMessageQueue.nc demo_roy) demo_listening)
    by (left; discriminate).
  assert (Hf : no_fault 2 demo_listening) by (vm_compute; constructor).
  repeat (split; [assumption || exact I|]).
  destruct (send_message_publishes_twice demo_roy demo_listening
              (lit "agent_sylvia") (lit "hi") PNone Hwf Hc Hf I)
    as (m & payload & self' & w' & Hrun & Hfrom & _ & _ & _ & Henc & Hp
        & Hinbox).
  exists m, payload, self', w'.
  repeat split; try assumption.
  exact (Hinbox (lit "sylvia") eq_refl eq_refl).
Defined.

Section HistoryFacts.

Lemma length_neq_app (p s : str) : p <> [] -> p ++ s <> s.
Proof.
  intros Hp E. apply (f_equal (@length N)) in E. rewrite length_app in E.
  destruct p; [congruence | simpl in E; lia].
Qed.

Lemma str_eqb_prefixed (s : str) : str_eqb (lit "agent_" ++ s) s = false.
Proof.
  destruct (str_eqb _ _) eqn:E; [|reflexivity].
  apply str_eqb_eq in E. apply length_neq_app in E; [contradiction|].
  discriminate.
Qed.

End HistoryFacts.

(** C4, amended.  After two sequential [send_dm] calls from [H] to the
    agent [A] on a router with an empty history (the broker reachable, no
    publish failing), [get_conversation H ("agent_" ++ A)] is the two
    envelopes returned, in call order, and [get_conversation H A], asked
    with the bare agent id, is empty: the history records the recipient
    with its agent prefix. *)
Theorem conversation_after_two_dms (w : World) (H A c1 c2 : str) :
  NATS_AVAILABLE w = true ->
  broker_up w = true ->
  faults w = [] ->
  exists (m1 m2 : Message) (s1 s2 : MessageRouter.t * World),
    MessageRouter.send_dm H A c1 (MessageRouter.__init__, w) = (Ok m1, s1)
    /\ MessageRouter.send_dm H A c2 s1 = (Ok m2, s2)
    /\ content m1 = PStr c1
    /\ content m2 = PStr c2
    /\ MessageRouter.get_conversation (fst s2) H (lit "agent_" ++ A)
       = [m1; m2]
    /\ MessageRouter.get_conversation (fst s2) H A = [].
Proof.
  intros Havail Hup Hfaults.
  destruct w as [ns repr avail up fs pub subs clk tk lg out].
  cbn [NATS_AVAILABLE broker_up faults] in *. subst avail up fs.
  unfold MessageRouter.send_dm, MessageRouter.__init__.
  exec. rewrite !encode_textual by apply textual_dm. exec.
  do 4 eexists. split; [reflexivity|]. exec.
  rewrite !encode_textual by apply textual_dm. exec.
  split; [reflexivity|].
  split; [reflexivity|]. split; [reflexivity|].
  unfold MessageRouter.get_conversation.
  cbn [MessageRouter.message_history app filter from_user to_user eq_str].
  rewrite !str_eqb_refl, !str_eqb_prefixed. cbn [andb orb].
  split; [reflexivity|].
  assert (Hno : str_eqb H A && str_eqb (lit "agent_" ++ A) H = false).
  { destruct (str_eqb H A) eqn:E; [|reflexivity].
    apply str_eqb_eq in E. subst A. apply str_eqb_prefixed. }
  rewrite Hno. reflexivity.
Qed.

(** C4, amended, for alice and sylvia. *)
Lemma conversation_after_two_dms_witness :
  NATS_AVAILABLE demo_world = true
  /\ broker_up demo_world = true
  /\ faults demo_world = []
  /\ exists m1 m2 : Message,
       MessageRouter.get_conversation demo_router (lit "alice")
                                      (lit "agent_sylvia") = [m1; m2]
       /\ content m1 = PStr (lit "hello")
       /\ content m2 = PStr (lit "are you there?").
Proof.
  repeat (split; [reflexivity|]).
  destruct (conversation_after_two_dms demo_world (lit "alice") (lit "sylvia")
              (lit "hello") (lit "are you there?") eq_refl eq_refl eq_refl)
    as (m1 & m2 & s1 & s2 & H1 & H2 & Hc1 & Hc2 & Hconv & _).
  exists m1, m2. repeat split; try assumption.
  unfold demo_router, run. rewrite H1. cbn [snd]. rewrite H2. exact Hconv.
Defined.

(** C4 as stated fails: after two DMs from alice to sylvia the history
    holds two envelopes, and [get_conversation "alice" "sylvia"] has not
    length 2 (it is empty). *)
Lemma conversation_bare_id_empty :
  length (MessageRouter.message_history demo_router) = 2%nat
  /\ length (MessageRouter.get_conversation demo_router (lit "alice")
                                            (lit "sylvia")) <> 2%nat.
Proof. split; [reflexivity | vm_compute; discriminate]. Qed.

(* ------------------------------------------------------------------ *)
(** ** Decode failures *)

(** C7 (decode resilience).  When a payload does not decode (its bytes
    are not UTF-8, its text is not JSON, or [from_dict] raises), the
    callback of each listener (inbox processor, router feed, viewer)
    returns normally, leaves its object as it was (nothing is appended,
    no handler or callback ran), and changes the world only by the error
    the logger recorded: subscriptions and publications are untouched.
    A payload delivered next is processed exactly as it would be from
    that state. *)
Theorem decode_failure_is_dropped (data : bytes) (e : exn) :
  decode data = Raise e ->
  (forall (self : AgentMessageQueue.t) (w : World) (next : bytes),
      AgentMessageQueue.message_callback data (self, w)
      = (Ok tt, (self, logged "Error processing message" e w))
      /\ (AgentMessageQueue.message_callback data ;;
          AgentMessageQueue.message_callback next) (self, w)
         = AgentMessageQueue.message_callback next
             (self, logged "Error processing message" e w))
  /\ (forall (callback : Message -> M World unit) (w : World) (next : bytes),
        MessageRouter.message_callback callback data w
        = (Ok tt, logged "Error in message callback" e w)
        /\ (MessageRouter.message_callback callback data ;;
            MessageRouter.message_callback callback next) w
           = MessageRouter.message_callback callback next
               (logged "Error in message callback" e w))
  /\ (forall (print_messages : bool) (self : MessageViewer.t) (w : World)
             (next : bytes),
        MessageViewer.message_callback print_messages data (self, w)
        = (Ok tt, (self, logged "Error viewing message" e w))
        /\ (MessageViewer.message_callback print_messages data ;;
            MessageViewer.message_callback print_messages next) (self, w)
           = MessageViewer.message_callback print_messages next
               (self, logged "Error viewing message" e w))
  /\ (forall (text : string) (w : World),
        subscriptions (logged text e w) = subscriptions w
        /\ published (logged text e w) = published w).
Proof.
  intros Hbad.
  assert (Hagent : forall self w,
             AgentMessageQueue.message_callback data (self, w)
             = (Ok tt, (self, logged "Error processing message" e w))).
  { intros self w. unfold AgentMessageQueue.message_callback.
    unfold try_except, bind at 1, of_outcome. rewrite Hbad. reflexivity. }
  assert (Hrouter : forall callback w,
             MessageRouter.message_callback callback data w
             = (Ok tt, logged "Error in message callback" e w)).
  { intros callback w. unfold MessageRouter.message_callback.
    unfold try_except, bind, of_outcome. rewrite Hbad. reflexivity. }
  assert (Hviewer : forall p self w,
             MessageViewer.message_callback p data (self, w)
             = (Ok tt, (self, logged "Error viewing message" e w))).
  { intros p self w. unfold MessageViewer.message_callback.
    unfold try_except, bind at 1, of_outcome. rewrite Hbad. reflexivity. }
  repeat split.
  - apply Hagent.
  - unfold bind at 1. rewrite Hagent. reflexivity.
  - apply Hrouter.
  - unfold bind at 1. rewrite Hrouter. reflexivity.
  - apply Hviewer.
  - unfold bind at 1. rewrite Hviewer. reflexivity.
Qed.

(** C7 at a payload that is no JSON. *)
Lemma decode_failure_is_dropped_witness :
  decode (lit "{not json") = Raise JSONDecodeError
  /\ (forall (print_messages : bool) (self : MessageViewer.t) (w : World),
        MessageViewer.message_callback print_messages (lit "{not json")
                                       (self, w)
        = (Ok tt, (self, logged "Error viewing message" JSONDecodeError w)))
  /\ (forall (self : AgentMessageQueue.t) (w : World),
        AgentMessageQueue.message_callback (lit "{not json") (self, w)
        = (Ok tt, (self, logged "Error processing message" JSONDecodeError w))).
Proof.
  assert (Hbad : decode (lit "{not json") = Raise JSONDecodeError)
    by (vm_compute; reflexivity).
  split; [exact Hbad|].
  destruct (decode_failure_is_dropped (lit "{not json") JSONDecodeError Hbad)
    as (Hagent & _ & Hviewer & _).
  split.
  - intros p self w. exact (proj1 (Hviewer p self w [])).
  - intros self w. exact (proj1 (Hagent self w [])).
Defined.

Section ViewerFacts.

Lemma viewer_callback_appends (p : bool) (d : bytes) (self : MessageViewer.t)
  (w : World) :
  exists w' : World,
    MessageViewer.message_callback p d (self, w)
    = (Ok tt,
       (MessageViewer.mk (MessageViewer.nc self)
          (MessageViewer.messages self ++ decoded [d]), w')).
Proof.
  unfold MessageViewer.message_callback, decoded. cbn [flat_map].
  unfold try_except, bind at 1, of_outcome.
  destruct self as [nc msgs].
  destruct (decode d) as [m|e]; [destruct p|]; exec;
    rewrite !app_nil_r; eexists; reflexivity.
Qed.

Lemma decoded_cons (d : bytes) (ds : list bytes) :
  decoded (d :: ds) = decoded [d] ++ decoded ds.
Proof. unfold decoded. cbn [flat_map]. rewrite app_nil_r. reflexivity. Qed.

End ViewerFacts.

(* ------------------------------------------------------------------ *)
(** ** The viewer *)

(** C3, amended.  The viewer does not de-duplicate: for every sequence of
    deliveries to its callback, the accumulator returned by
    [get_all_messages] is what it held before followed by one entry for
    each delivery that decodes, in arrival order; an envelope delivered
    under two subscriptions is held twice. *)
Theorem viewer_keeps_every_delivery (print_messages : bool) (ds : list bytes)
  (self : MessageViewer.t) (w : World) :
  MessageViewer.get_all_messages
    (fst (run (receive_all print_messages ds) (self, w)))
  = MessageViewer.get_all_messages self ++ decoded ds.
Proof.
  unfold MessageViewer.get_all_messages.
  revert self w. induction ds as [|d ds IH]; intros self w.
  - unfold decoded. cbn. rewrite app_nil_r. reflexivity.
  - cbn [receive_all]. unfold run, bind.
    destruct (viewer_callback_appends print_messages d self w) as [w' ->].
    fold (run (receive_all print_messages ds)
              (MessageViewer.mk (MessageViewer.nc self)
                 (MessageViewer.messages self ++ decoded [d]), w')).
    rewrite IH. cbn [MessageViewer.messages].
    rewrite (decoded_cons d ds), app_assoc. reflexivity.
Qed.

(** C3 as stated fails: one [send_dm], observed by the viewer through
    the feed and through the inbox pattern, leaves two entries with the
    same id in the accumulator. *)
Lemma viewer_sees_one_send_twice :
  ~ deduplicated (MessageViewer.get_all_messages demo_viewer).
Proof.
  intros H. vm_compute in H.
  inversion H as [|x l Hnotin _]. apply Hnotin. left. reflexivity.
Qed.

(* ------------------------------------------------------------------ *)
(** ** The subject scheme *)

(** C9 at its failing input.  The recipients ["agent_x"] and
    ["agent_agent_x"] are different identities, yet [send_message]
    resolves both to the inbox subject of [x], because it removes every
    occurrence of ["agent_"]; [send_dm] to the agent id ["agent_x"]
    records the recipient ["agent_agent_x"] and publishes to the inbox
    subject of [agent_x]. *)
Lemma recipients_collide :
  lit "agent_x" <> lit "agent_agent_x"
  /\ map fst
       (new_publications demo_listening
          (snd (run (AgentMessageQueue.send_message (PStr (lit "agent_x"))
                                                     (lit "hi") PNone)
                    (demo_roy, demo_listening))))
     = [lit "themultiverse.agents.x.inbox";
        lit "themultiverse.agents.roy.outbox"]
  /\ map fst
       (new_publications demo_listening
          (snd (run (AgentMessageQueue.send_message
                       (PStr (lit "agent_agent_x")) (lit "hi") PNone)
                    (demo_roy, demo_listening))))
     = [lit "themultiverse.agents.x.inbox";
        lit "themultiverse.agents.roy.outbox"]
  /\ map fst
       (new_publications demo_listening
          (snd (run (MessageRouter.send_dm (lit "bob") (lit "agent_x")
                                           (lit "hi"))
                    (MessageRouter.__init__, demo_listening))))
     = [lit "themultiverse.agents.agent_x.inbox";
        lit "themultiverse.messages.all"]
  /\ map to_user
       (MessageRouter.message_history
          (fst (run (MessageRouter.send_dm (lit "bob") (lit "agent_x")
                                           (lit "hi"))
                    (MessageRouter.__init__, demo_listening))))
     = [PStr (lit "agent_agent_x")].
Proof.
  split; [discriminate|]. repeat split; vm_compute; reflexivity.
Qed.

(** Run the callback of an inbox processor down to its sends. *)
Ltac exec_agent :=
  cbv beta iota zeta delta
    [bind in_world get_self set_self get_world utcnow ret raise try_except
     publish_message of_outcome nc_publish logger_info logger_error
     fst snd negb
     NATS_NAMESPACE py_repr NATS_AVAILABLE broker_up faults published
     subscriptions clock ticks log stdout
     with_faults with_published with_ticks with_log
     AgentMessageQueue.agent_name AgentMessageQueue.inbox_subject
     AgentMessageQueue.outbox_subject AgentMessageQueue.message_handler
     AgentMessageQueue.nc AgentMessageQueue.subscription
     AgentMessageQueue.message_callback AgentMessageQueue.call_handler
     AgentMessageQueue.default_message_handler
     AgentMessageQueue.send_message
     slice50 format slice_to content from_user thread_id hop].

(* ------------------------------------------------------------------ *)
(** ** Reply chains *)

Section EchoFacts.

Lemma valid_str_app (a b : str) :
  valid_str a -> valid_str b -> valid_str (a ++ b).
Proof. intros; apply Forall_app; split; assumption. Qed.

Lemma valid_str_firstn (n : nat) (s : str) :
  valid_str s -> valid_str (firstn n s).
Proof.
  unfold valid_str. intros H. revert n.
  induction H as [|c s Hc _ IH]; intros [|n]; simpl; constructor; auto.
Qed.

Lemma echo_agent_world (w w' : World) (a : AgentMessageQueue.t) :
  NATS_NAMESPACE w' = NATS_NAMESPACE w ->
  subscriptions w' = subscriptions w ->
  echo_agent w a -> echo_agent w' a.
Proof.
  intros Hns Hsubs [[Hin Hout] Hd Hc Hl Hn Hp].
  constructor; try assumption.
  - split; rewrite Hns; assumption.
  - rewrite Hsubs. exact Hl.
Qed.

Lemma delivered_first (who : subscriber -> bool) (pattern subject : str)
  (sub : subscriber) (p : bytes) (subs : list (str * subscriber))
  (pubs : list (str * bytes)) :
  In (pattern, sub) subs -> who sub = true ->
  subject_matches pattern subject = true ->
  exists more : list bytes,
    delivered who subs ((subject, p) :: pubs) = p :: more.
Proof.
  intros Hin Hwho Hmatch. unfold delivered. cbn [flat_map fst snd].
  enough (Hfirst : exists more,
             flat_map (fun s : str * subscriber =>
                         if who (snd s) && subject_matches (fst s) subject
                         then [p] else []) subs = p :: more).
  { destruct Hfirst as [more ->]. eexists. reflexivity. }
  induction subs as [|[pat' sub'] subs IH]; [contradiction|].
  cbn [flat_map fst snd].
  destruct (who sub' && subject_matches pat' subject) eqn:E.
  - eexists. reflexivity.
  - destruct Hin as [Heq | Hin].
    + injection Heq as -> ->. rewrite Hwho, Hmatch in E. discriminate.
    + destruct (IH Hin) as [more ->]. eexists. reflexivity.
Qed.

Lemma echo_hop (a b : AgentMessageQueue.t) (w : World) (m : Message)
  (data : bytes) :
  echo_agent w a -> echo_agent w b ->
  faults w = [] -> valid_clock w ->
  valid_envelope m ->
  from_user m = PStr (lit "agent_" ++ AgentMessageQueue.agent_name b) ->
  encode m = Ok data ->
  exists (w' : World) (m' : Message) (reply : bytes) (more : list bytes),
    hop a b w data = ((a, w'), reply :: more)
    /\ encode m' = Ok reply
    /\ valid_envelope m'
    /\ from_user m' = PStr (lit "agent_" ++ AgentMessageQueue.agent_name a)
    /\ faults w' = []
    /\ NATS_NAMESPACE w' = NATS_NAMESPACE w
    /\ subscriptions w' = subscriptions w
    /\ clock w' = clock w.
Proof.
  intros [[Hin Hout] Hdef Hconn _ Hname _]
         [[Hinb _] _ _ [Hsub Hself] Hnameb Hprefix]
         Hfaults Hclock Hm Hfrom Henc.
  assert (Hdata : Json.dumps (to_dict m) = data).
  { rewrite encode_textual in Henc by (apply valid_textual; exact Hm).
    congruence. }
  pose proof (decode_dumps m Hm) as Hdec. rewrite Hdata in Hdec.
  clear Hdata Henc.
  destruct Hm as [Hi Hf Ht Hc Hs Hk Hth].
  destruct m as [i f t c s k th].
  cbn [id from_user to_user content timestamp message_type thread_id] in *.
  subst f.
  destruct c as [| | | |c| |]; try contradiction. cbn [valid_text] in Hc.
  destruct a as [name inbox outbox handler nc sub].
  cbn [AgentMessageQueue.agent_name AgentMessageQueue.inbox_subject
       AgentMessageQueue.outbox_subject AgentMessageQueue.message_handler
       AgentMessageQueue.nc] in *.
  subst handler inbox outbox.
  destruct nc as [conn|]; [clear Hconn | congruence].
  unfold hop. rewrite Hinb in Hsub, Hself. clear Hinb.
  set (bname := AgentMessageQueue.agent_name b) in *. clearbody bname.
  destruct w as [ns repr avail up fs pub subs clk tk lg out].
  cbn [faults NATS_NAMESPACE clock subscriptions] in *. subst fs.
  destruct (Hclock tk) as [Hposix _]. destruct (Hclock (S tk)) as [_ Hiso].
  cbn [clock] in Hposix, Hiso.
  set (reply :=
         mkMessage (PStr (lit "msg_" ++ posix (clk tk)))
                   (PStr (lit "agent_" ++ name))
                   (PStr (lit "agent_" ++ bname))
                   (PStr (lit "Agent " ++ name
                          ++ lit " received your message: '"
                          ++ firstn 50 c ++ lit "...'"))
                   (PStr (iso (clk (S tk)))) (PStr (lit "dm")) th).
  assert (Hreply : encode reply = Ok (Json.dumps (to_dict reply)))
    by (apply encode_textual, textual_reply, valid_thread_textual; exact Hth).
  exec_agent. rewrite Hdec. exec_agent.
  rewrite startswith_app. exec_agent.
  rewrite Hprefix. fold reply. rewrite !Hreply. exec_agent.
  unfold new_publications. cbn [published].
  rewrite <- app_assoc, skipn_app_exact. cbn [app].
  destruct (delivered_first (is_agent bname)
              (ns ++ lit ".agents." ++ bname ++ lit ".inbox")
              (ns ++ lit ".agents." ++ bname ++ lit ".inbox")
              (AgentInbox bname) (Json.dumps (to_dict reply)) subs
              [(ns ++ lit ".agents." ++ name ++ lit ".outbox",
                Json.dumps (to_dict reply))]
              Hsub (str_eqb_refl bname) Hself) as [more Hmore].
  eexists _, reply, _, more.
  split; [apply f_equal2; [reflexivity | exact Hmore]|].
  split; [exact Hreply|].
  repeat split; try reflexivity.
  - apply valid_str_app; [apply valid_strb_sound; reflexivity | exact Hposix].
  - apply valid_str_app; [apply valid_strb_sound; reflexivity | exact Hname].
  - exact Hf.
  - repeat apply valid_str_app; try exact Hname;
      try (apply valid_strb_sound; reflexivity).
    apply valid_str_firstn; exact Hc.
  - exact Hiso.
  - left; reflexivity.
  - exact Hth.
Qed.

Lemma volley_echo (n : nat) :
  forall (a b : AgentMessageQueue.t) (w : World) (m : Message) (data : bytes),
    echo_agent w a -> echo_agent w b ->
    faults w = [] -> valid_clock w ->
    valid_envelope m ->
    from_user m = PStr (lit "agent_" ++ AgentMessageQueue.agent_name b) ->
    encode m = Ok data ->
    volley n a b w data = n.
Proof.
  induction n as [|n IH]; intros a b w m data Ha Hb Hfaults Hclock Hm Hfrom Henc;
    [reflexivity|].
  cbn [volley].
  destruct (echo_hop a b w m data Ha Hb Hfaults Hclock Hm Hfrom Henc)
    as (w' & m' & reply & more & -> & Henc' & Hm' & Hfrom' & Hf' & Hns
        & Hsubs & Hclk).
  f_equal. apply (IH b a w' m' reply); try assumption.
  - apply (echo_agent_world w); assumption.
  - apply (echo_agent_world w); assumption.
  - unfold valid_clock. rewrite Hclk. exact Hclock.
Qed.

End EchoFacts.

Section DemoFacts.

Lemma valid_lit_cons (c : ascii) (s : string) :
  scalarb (N_of_ascii c) = true -> valid_str (lit s) ->
  valid_str (lit (String c s)).
Proof.
  intros Hc Hs. change (lit (String c s)) with (N_of_ascii c :: lit s).
  constructor; [apply scalarb_sound; exact Hc | exact Hs].
Qed.

Lemma string_of_uint_valid (u : Decimal.uint) :
  valid_str (lit (DecimalString.NilEmpty.string_of_uint u)).
Proof.
  induction u; cbn [DecimalString.NilEmpty.string_of_uint];
    try (apply valid_lit_cons; [reflexivity | assumption]).
  constructor.
Qed.

Lemma digits_valid (n : N) : valid_str (digits n).
Proof.
  unfold digits, NilZero.string_of_uint.
  destruct (N.to_uint n); try apply string_of_uint_valid.
  apply valid_strb_sound; reflexivity.
Qed.

Lemma demo_clock_valid : valid_clock demo_listening.
Proof.
  intros k. change (clock demo_listening k) with (demo_clock k).
  cbn [demo_clock posix iso]. split.
  - apply valid_str_app; [apply digits_valid|].
    apply valid_strb_sound; reflexivity.
  - apply valid_str_app; [|apply digits_valid].
    apply valid_strb_sound; reflexivity.
Qed.

Lemma demo_sylvia_echo : echo_agent demo_listening demo_sylvia.
Proof.
  constructor; try reflexivity; try discriminate.
  - split; reflexivity.
  - split; [left; reflexivity | reflexivity].
  - apply valid_strb_sound; reflexivity.
Qed.

Lemma demo_roy_echo : echo_agent demo_listening demo_roy.
Proof.
  constructor; try reflexivity; try discriminate.
  - split; reflexivity.
  - split; [right; left; reflexivity | reflexivity].
  - apply valid_strb_sound; reflexivity.
Qed.

End DemoFacts.

(** C2, amended.  The code has no guard on automatic replies: when two
    processors answer with the default echo handler, and an envelope
    whose sender is the agent identity of one arrives in the inbox of
    the other, then every hop delivered produces one more reply: for
    every [n], delivering [n] hops yields [n] replies.  (The broker
    accepts every publish and the clock hands out well-formed text.) *)
Theorem echo_chain_never_stops (a b : AgentMessageQueue.t) (w : World)
  (m : Message) (data : bytes) :
  echo_agent w a -> echo_agent w b ->
  faults w = [] -> valid_clock w ->
  valid_envelope m ->
  from_user m = PStr (lit "agent_" ++ AgentMessageQueue.agent_name b) ->
  encode m = Ok data ->
  forall n : nat, volley n a b w data = n.
Proof.
  intros Ha Hb Hfaults Hclock Hm Hfrom Henc n.
  apply (volley_echo n a b w m data); assumption.
Qed.

(** C2, amended, for sylvia and roy. *)
Lemma echo_chain_never_stops_witness :
  echo_agent demo_listening demo_sylvia
  /\ echo_agent demo_listening demo_roy
  /\ faults demo_listening = []
  /\ valid_clock demo_listening
  /\ valid_envelope demo_first
  /\ from_user demo_first
     = PStr (lit "agent_" ++ AgentMessageQueue.agent_name demo_roy)
  /\ encode demo_first = Ok (Json.dumps (to_dict demo_first))
  /\ forall n : nat,
       volley n demo_sylvia demo_roy demo_listening
              (Json.dumps (to_dict demo_first)) = n.
Proof.
  assert (Hm : valid_envelope demo_first)
    by (apply valid_envelopeb_sound; vm_compute; reflexivity).
  assert (Henc : encode demo_first = Ok (Json.dumps (to_dict demo_first)))
    by (vm_compute; reflexivity).
  repeat (split; [first [ exact demo_sylvia_echo | exact demo_roy_echo
                        | exact demo_clock_valid | exact Hm | exact Henc
                        | reflexivity ]|]).
  exact (echo_chain_never_stops demo_sylvia demo_roy demo_listening demo_first
           (Json.dumps (to_dict demo_first))
           demo_sylvia_echo demo_roy_echo eq_refl demo_clock_valid Hm
           eq_refl Henc).
Defined.

(** C2 as stated fails: between sylvia and roy no number bounds the
    replies that one envelope triggers. *)
Lemma echo_chain_unbounded :
  ~ chain_bounded demo_sylvia demo_roy demo_listening
                  (Json.dumps (to_dict demo_first)).
Proof.
  intros [bound Hbound].
  specialize (Hbound (S bound)).
  rewrite (volley_echo (S bound) demo_sylvia demo_roy demo_listening demo_first)
    in Hbound.
  - lia.
  - exact demo_sylvia_echo.
  - exact demo_roy_echo.
  - reflexivity.
  - exact demo_clock_valid.
  - apply valid_envelopeb_sound; vm_compute; reflexivity.
  - reflexivity.
  - vm_compute; reflexivity.
Qed.

(* ================================================================== *)
(** * Further properties of the components *)

(** ** Connecting *)

(** X1 (connect).  [connect] of the inbox processor, of the router and of
    the viewer never raises.  When the client library is there and the
    broker answers, it returns [True], stores the connection and logs it;
    otherwise it returns [False], leaves the object as it was and logs
    the error.  Nothing else in the world changes. *)
Theorem connect_reports (w : World) :
  (forall self : AgentMessageQueue.t,
      AgentMessageQueue.connect (self, w)
      = if NATS_AVAILABLE w && broker_up w
        then (Ok true,
              (AgentMessageQueue.with_nc (Some Client) self,
               with_log (log w ++ [Info "Agent {} connected to NATS"
                                        [PStr (AgentMessageQueue.agent_name self)]])
                        w))
        else (Ok false, (self, with_log (log w ++ [connect_error w]) w)))
  /\ (forall self : MessageRouter.t,
        MessageRouter.connect (self, w)
        = if NATS_AVAILABLE w && broker_up w
          then (Ok true,
                (MessageRouter.mk (Some Client)
                                  (MessageRouter.message_history self),
                 with_log (log w ++ [Info "MessageRouter connected to NATS" []])
                          w))
          else (Ok false, (self, with_log (log w ++ [connect_error w]) w)))
  /\ (forall self : MessageViewer.t,
        MessageViewer.connect (self, w)
        = if NATS_AVAILABLE w && broker_up w
          then (Ok true,
                (MessageViewer.mk (Some Client) (MessageViewer.messages self),
                 with_log (log w ++ [Info "MessageViewer connected to NATS" []])
                          w))
          else (Ok false, (self, with_log (log w ++ [connect_error w]) w))).
Proof.
  destruct w as [ns repr avail up fs pub subs clk tk lg out].
  unfold connect_error.
  repeat split; intros self; destruct self; destruct avail, up;
    reflexivity.
Qed.

(** X2 ([send_dm] without a broker).  When the router holds no connection
    and cannot connect, [send_dm] raises [AttributeError] (the [publish]
    of a missing connection), publishes nothing and leaves the router,
    history included, as it was. *)
Theorem send_dm_unreachable (self : MessageRouter.t) (w : World)
  (H A C : str) :
  MessageRouter.nc self = None ->
  cannot_connect w ->
  exists w' : World,
    MessageRouter.send_dm H A C (self, w) = (Raise AttributeError, (self, w'))
    /\ published w' = published w
    /\ subscriptions w' = subscriptions w.
Proof.
  intros Hnc Hdown.
  destruct self as [nc hist]. cbn [MessageRouter.nc] in Hnc. subst nc.
  destruct w as [ns repr avail up fs pub subs clk tk lg out].
  unfold cannot_connect in Hdown. cbn [NATS_AVAILABLE broker_up] in Hdown.
  unfold MessageRouter.send_dm.
  destruct avail, up; try (destruct Hdown; discriminate);
    exec; eexists; repeat split; reflexivity.
Qed.

(** X2 at a broker that does not answer. *)
Lemma send_dm_unreachable_witness :
  MessageRouter.nc MessageRouter.__init__ = None
  /\ cannot_connect (mkWorld (lit "themultiverse") (fun _ => []) true false
                             [] [] [] demo_clock 0 [] [])
  /\ exists w' : World,
       MessageRouter.send_dm (lit "alice") (lit "sylvia") (lit "hello")
         (MessageRouter.__init__,
          mkWorld (lit "themultiverse") (fun _ => []) true false
                  [] [] [] demo_clock 0 [] [])
       = (Raise AttributeError, (MessageRouter.__init__, w'))
       /\ published w' = []
       /\ subscriptions w' = [].
Proof.
  assert (Hdown : cannot_connect
                    (mkWorld (lit "themultiverse") (fun _ => []) true false
                             [] [] [] demo_clock 0 [] []))
    by (right; reflexivity).
  split; [reflexivity|]. split; [exact Hdown|].
  exact (send_dm_unreachable MessageRouter.__init__ _ (lit "alice")
           (lit "sylvia") (lit "hello") eq_refl Hdown).
Defined.

(** X3 (the history only grows).  Whatever the state of the router and
    of the world, one [send_dm] leaves the history it found followed by
    at most one envelope; when the call returns an envelope, that
    envelope is what was appended. *)
Theorem history_only_grows (self : MessageRouter.t) (w : World)
  (H A C : str) :
  exists suffix : list Message,
    MessageRouter.message_history
      (fst (run (MessageRouter.send_dm H A C) (self, w)))
    = MessageRouter.message_history self ++ suffix
    /\ (length suffix <= 1)%nat
    /\ (forall m : Message,
          fst (MessageRouter.send_dm H A C (self, w)) = Ok m ->
          suffix = [m]).
Proof.
  set (m := mkMessage (PStr (lit "msg_" ++ posix (clock w (ticks w))))
                      (PStr H) (PStr (lit "agent_" ++ A)) (PStr C)
                      (PStr (iso (clock w (S (ticks w)))))
                      (PStr (lit "dm")) PNone).
  assert (Henc : encode m = Ok (Json.dumps (to_dict m)))
    by apply encode_textual, textual_dm.
  subst m. revert Henc.
  destruct self as [nc hist].
  destruct w as [ns repr avail up fs pub subs clk tk lg out].
  cbn [clock ticks]. intros Henc.
  unfold MessageRouter.send_dm.
  destruct nc as [c|]; [|destruct avail, up];
    (destruct fs as [|[|] [|[|] rest]]);
    exec; rewrite ?Henc; exec;
    first [ exists []; rewrite app_nil_r;
            repeat split; [cbn; lia | intros m' Hm'; discriminate Hm']
          | eexists [_];
            repeat split; [cbn; lia | intros m' Hm'; first [discriminate Hm' | injection Hm' as <-; reflexivity]] ].
Qed.

(** ** Subscribing *)

(** X5 ([start_listening]).  When the processor is connected or can
    connect, [start_listening] adds exactly one subscription, for its
    inbox subject, keeps it in [subscription], is connected afterwards,
    and publishes nothing. *)
Theorem start_listening_subscribes (self : AgentMessageQueue.t) (w : World) :
  can_connect (AgentMessageQueue.nc self) w ->
  exists (self' : AgentMessageQueue.t) (w' : World),
    AgentMessageQueue.start_listening (self, w) = (Ok tt, (self', w'))
    /\ subscriptions w'
       = subscriptions w
         ++ [(AgentMessageQueue.inbox_subject self,
              AgentInbox (AgentMessageQueue.agent_name self))]
    /\ AgentMessageQueue.subscription self'
       = Some (AgentMessageQueue.inbox_subject self,
               AgentInbox (AgentMessageQueue.agent_name self))
    /\ AgentMessageQueue.nc self' <> None
    /\ published w' = published w.
Proof.
  intros Hconn.
  destruct self as [name inbox outbox handler nc sub].
  destruct w as [ns repr avail up fs pub subs clk tk lg out].
  unfold can_connect in Hconn.
  cbn [AgentMessageQueue.nc NATS_AVAILABLE broker_up] in Hconn.
  unfold AgentMessageQueue.start_listening.
  destruct nc as [c|].
  - exec. do 2 eexists. repeat split; try reflexivity. discriminate.
  - destruct Hconn as [Hc | [-> ->]]; [congruence|].
    exec. do 2 eexists. repeat split; try reflexivity. discriminate.
Qed.

(** X5 for roy. *)
Lemma start_listening_subscribes_witness :
  can_connect
    (AgentMessageQueue.nc (AgentMessageQueue.__init__ demo_world (lit "roy") None))
    demo_world
  /\ exists (self' : AgentMessageQueue.t) (w' : World),
       AgentMessageQueue.start_listening
         (AgentMessageQueue.__init__ demo_world (lit "roy") None, demo_world)
       = (Ok tt, (self', w'))
       /\ subscriptions w'
          = [(lit "themultiverse.agents.roy.inbox", AgentInbox (lit "roy"))].
Proof.
  assert (Hc : can_connect
                 (AgentMessageQueue.nc
                    (AgentMessageQueue.__init__ demo_world (lit "roy") None))
                 demo_world) by (right; split; reflexivity).
  split; [exact Hc|].
  destruct (start_listening_subscribes
              (AgentMessageQueue.__init__ demo_world (lit "roy") None)
              demo_world Hc)
    as (self' & w' & Hrun & Hsubs & _).
  exists self', w'. split; [exact Hrun | exact Hsubs].
Defined.

(** X6 ([start_listening] without a broker).  When the processor holds no
    connection and cannot connect, [start_listening] returns normally
    without subscribing: the only trace is the error [connect] logged. *)
Theorem start_listening_unreachable (self : AgentMessageQueue.t) (w : World) :
  AgentMessageQueue.nc self = None ->
  cannot_connect w ->
  AgentMessageQueue.start_listening (self, w)
  = (Ok tt, (self, with_log (log w ++ [connect_error w]) w)).
Proof.
  intros Hnc Hdown.
  destruct self as [name inbox outbox handler nc sub].
  cbn [AgentMessageQueue.nc] in Hnc. subst nc.
  destruct w as [ns repr avail up fs pub subs clk tk lg out].
  unfold cannot_connect in Hdown. cbn [NATS_AVAILABLE broker_up] in Hdown.
  unfold AgentMessageQueue.start_listening, connect_error.
  destruct avail, up; try (destruct Hdown; discriminate); reflexivity.
Qed.

(** X6 where the client library is missing. *)
Lemma start_listening_unreachable_witness :
  AgentMessageQueue.nc (AgentMessageQueue.__init__ demo_world (lit "roy") None)
  = None
  /\ cannot_connect (mkWorld (lit "themultiverse") (fun _ => []) false true
                             [] [] [] demo_clock 0 [] [])
  /\ fst (AgentMessageQueue.start_listening
            (AgentMessageQueue.__init__ demo_world (lit "roy") None,
             mkWorld (lit "themultiverse") (fun _ => []) false true
                     [] [] [] demo_clock 0 [] []))
     = Ok tt.
Proof.
  assert (Hdown : cannot_connect
                    (mkWorld (lit "themultiverse") (fun _ => []) false true
                             [] [] [] demo_clock 0 [] []))
    by (left; reflexivity).
  split; [reflexivity|]. split; [exact Hdown|].
  rewrite (start_listening_unreachable
             (AgentMessageQueue.__init__ demo_world (lit "roy") None) _
             eq_refl Hdown).
  reflexivity.
Defined.

(** X7 ([start_viewing]).  When the viewer is connected or can connect,
    [start_viewing] adds exactly three subscriptions, for
    [N.messages.>], [N.agents.*.inbox] and [N.agents.*.outbox] in this
    order, and leaves the accumulator and the publications alone. *)
Theorem start_viewing_subscribes (print_messages : bool)
  (self : MessageViewer.t) (w : World) :
  can_connect (MessageViewer.nc self) w ->
  exists (self' : MessageViewer.t) (w' : World),
    MessageViewer.start_viewing print_messages (self, w)
    = (Ok tt, (self', w'))
    /\ subscriptions w'
       = subscriptions w
         ++ map (fun p => (p, ViewerFeed)) (viewer_patterns (NATS_NAMESPACE w))
    /\ MessageViewer.messages self' = MessageViewer.messages self
    /\ published w' = published w.
Proof.
  intros Hconn.
  destruct self as [nc msgs].
  destruct w as [ns repr avail up fs pub subs clk tk lg out].
  unfold can_connect in Hconn.
  cbn [MessageViewer.nc NATS_AVAILABLE broker_up] in Hconn.
  unfold MessageViewer.start_viewing, viewer_patterns.
  destruct nc as [c|].
  - exec. do 2 eexists. repeat split; try reflexivity.
    cbn [map]. rewrite <- !app_assoc. reflexivity.
  - destruct Hconn as [Hc | [-> ->]]; [congruence|].
    exec. do 2 eexists. repeat split; try reflexivity.
    cbn [map]. rewrite <- !app_assoc. reflexivity.
Qed.

(** X7 in the namespace of [demo]. *)
Lemma start_viewing_subscribes_witness :
  can_connect (MessageViewer.nc MessageViewer.__init__) demo_world
  /\ exists (self' : MessageViewer.t) (w' : World),
       MessageViewer.start_viewing true (MessageViewer.__init__, demo_world)
       = (Ok tt, (self', w'))
       /\ subscriptions w'
          = [(lit "themultiverse.messages.>", ViewerFeed);
             (lit "themultiverse.agents.*.inbox", ViewerFeed);
             (lit "themultiverse.agents.*.outbox", ViewerFeed)].
Proof.
  assert (Hc : can_connect (MessageViewer.nc MessageViewer.__init__) demo_world)
    by (right; split; reflexivity).
  split; [exact Hc|].
  destruct (start_viewing_subscribes true MessageViewer.__init__ demo_world Hc)
    as (self' & w' & Hrun & Hsubs & _).
  exists self', w'. split; [exact Hrun | exact Hsubs].
Defined.

(** X8 ([start_viewing] without a broker).  Unlike [start_listening],
    [start_viewing] does not look at what [connect] returned: when the
    viewer cannot connect it raises [AttributeError] at the first
    [subscribe], having subscribed to nothing. *)
Theorem start_viewing_unreachable (print_messages : bool)
  (self : MessageViewer.t) (w : World) :
  MessageViewer.nc self = None ->
  cannot_connect w ->
  MessageViewer.start_viewing print_messages (self, w)
  = (Raise AttributeError, (self, with_log (log w ++ [connect_error w]) w)).
Proof.
  intros Hnc Hdown.
  destruct self as [nc msgs]. cbn [MessageViewer.nc] in Hnc. subst nc.
  destruct w as [ns repr avail up fs pub subs clk tk lg out].
  unfold cannot_connect in Hdown. cbn [NATS_AVAILABLE broker_up] in Hdown.
  unfold MessageViewer.start_viewing, connect_error.
  destruct avail, up; try (destruct Hdown; discriminate); reflexivity.
Qed.

(** X8 at a broker that does not answer. *)
Lemma start_viewing_unreachable_witness :
  MessageViewer.nc MessageViewer.__init__ = None
  /\ cannot_connect (mkWorld (lit "themultiverse") (fun _ => []) true false
                             [] [] [] demo_clock 0 [] [])
  /\ fst (MessageViewer.start_viewing true
            (MessageViewer.__init__,
             mkWorld (lit "themultiverse") (fun _ => []) true false
                     [] [] [] demo_clock 0 [] []))
     = Raise AttributeError.
Proof.
  assert (Hdown : cannot_connect
                    (mkWorld (lit "themultiverse") (fun _ => []) true false
                             [] [] [] demo_clock 0 [] []))
    by (right; reflexivity).
  split; [reflexivity|]. split; [exact Hdown|].
  rewrite (start_viewing_unreachable true MessageViewer.__init__ _
             eq_refl Hdown).
  reflexivity.
Defined.

(** X9 ([subscribe_all_messages]).  When the router is connected or can
    connect, [subscribe_all_messages] adds exactly one subscription, for
    the feed [N.messages.all], and leaves history and publications
    alone. *)
Theorem subscribe_all_messages_subscribes (self : MessageRouter.t)
  (w : World) :
  can_connect (MessageRouter.nc self) w ->
  exists (self' : MessageRouter.t) (w' : World),
    MessageRouter.subscribe_all_messages (self, w) = (Ok tt, (self', w'))
    /\ subscriptions w'
       = subscriptions w
         ++ [(NATS_NAMESPACE w ++ lit ".messages.all", RouterFeed)]
    /\ MessageRouter.message_history self'
       = MessageRouter.message_history self
    /\ published w' = published w.
Proof.
  intros Hconn.
  destruct self as [nc hist].
  destruct w as [ns repr avail up fs pub subs clk tk lg out].
  unfold can_connect in Hconn.
  cbn [MessageRouter.nc NATS_AVAILABLE broker_up] in Hconn.
  unfold MessageRouter.subscribe_all_messages.
  destruct nc as [c|].
  - exec. do 2 eexists. repeat split; reflexivity.
  - destruct Hconn as [Hc | [-> ->]]; [congruence|].
    exec. do 2 eexists. repeat split; reflexivity.
Qed.

(** X9 in the namespace of [demo]. *)
Lemma subscribe_all_messages_subscribes_witness :
  can_connect (MessageRouter.nc MessageRouter.__init__) demo_world
  /\ exists (self' : MessageRouter.t) (w' : World),
       MessageRouter.subscribe_all_messages (MessageRouter.__init__, demo_world)
       = (Ok tt, (self', w'))
       /\ subscriptions w' = [(lit "themultiverse.messages.all", RouterFeed)].
Proof.
  assert (Hc : can_connect (MessageRouter.nc MessageRouter.__init__) demo_world)
    by (right; split; reflexivity).
  split; [exact Hc|].
  destruct (subscribe_all_messages_subscribes MessageRouter.__init__
              demo_world Hc)
    as (self' & w' & Hrun & Hsubs & _).
  exists self', w'. split; [exact Hrun | exact Hsubs].
Defined.

(** ** Callbacks *)

(** X10 (callbacks never raise).  For every payload, every state and
    every handler or callback, the three callbacks registered on the
    broker return normally: no exception of the decoding, of the handler
    or of a publish inside it reaches the broker client. *)
Theorem callbacks_never_raise (data : bytes) (w : World) :
  (forall self : AgentMessageQueue.t,
      fst (AgentMessageQueue.message_callback data (self, w)) = Ok tt)
  /\ (forall callback : Message -> M World unit,
        fst (MessageRouter.message_callback callback data w) = Ok tt)
  /\ (forall (print_messages : bool) (self : MessageViewer.t),
        fst (MessageViewer.message_callback print_messages data (self, w))
        = Ok tt).
Proof.
  repeat split.
  - intros self. unfold AgentMessageQueue.message_callback, try_except.
    match goal with
    | |- fst (match ?body with _ => _ end) = _ =>
        destruct body as [[[]|e] s']; reflexivity
    end.
  - intros callback. unfold MessageRouter.message_callback, try_except.
    match goal with
    | |- fst (match ?body with _ => _ end) = _ =>
        destruct body as [[[]|e] s']; reflexivity
    end.
  - intros p self. unfold MessageViewer.message_callback, try_except.
    match goal with
    | |- fst (match ?body with _ => _ end) = _ =>
        destruct body as [[[]|e] s']; reflexivity
    end.
Qed.

(** X11 (the handler of an inbox processor).  For a payload that decodes
    to an envelope whose content can be sliced, the callback logs the
    reception and runs the handler given at construction exactly once, on
    the decoded envelope.  If the handler returns, the world is the one
    it left; if it raises, the exception is logged and the callback
    returns normally.  The processor itself is unchanged. *)
Theorem handler_runs_once (data : bytes) (m : Message) (head : pyval)
  (h : Message -> M World unit) (self : AgentMessageQueue.t) (w : World) :
  decode data = Ok m ->
  slice50 (content m) = Ok head ->
  AgentMessageQueue.message_handler self = AgentMessageQueue.custom_handler h ->
  AgentMessageQueue.message_callback data (self, w)
  = match h m (with_log
                 (log w ++ [Info "[{}] Received message from {}: {}..."
                                 [PStr (AgentMessageQueue.agent_name self);
                                  from_user m; head]]) w) with
    | (Ok _, w1) => (Ok tt, (self, w1))
    | (Raise e, w1) =>
        (Ok tt, (self, logged "Error processing message" e w1))
    end.
Proof.
  intros Hdec Hhead Hh.
  unfold AgentMessageQueue.message_callback, AgentMessageQueue.call_handler.
  unfold try_except, bind, of_outcome, get_self, in_world, logger_info.
  rewrite Hdec. cbn [fst snd]. rewrite Hhead, Hh. cbn [fst snd].
  destruct (h m _) as [[[]|e] w1]; reflexivity.
Qed.

(** X11 with a handler that raises. *)
Lemma handler_runs_once_witness :
  decode (Json.dumps (to_dict demo_first)) = Ok demo_first
  /\ slice50 (content demo_first) = Ok (PStr (lit "hi"))
  /\ log (snd (run (AgentMessageQueue.message_callback
                      (Json.dumps (to_dict demo_first)))
                   (AgentMessageQueue.__init__ demo_world (lit "roy")
                      (Some (fun _ => raise (HandlerError 7))),
                    demo_world)))
     = [Info "[{}] Received message from {}: {}..."
             [PStr (lit "roy"); PStr (lit "agent_roy"); PStr (lit "hi")];
        Error "Error processing message" (Some (HandlerError 7))].
Proof.
  assert (Hdec : decode (Json.dumps (to_dict demo_first)) = Ok demo_first)
    by (vm_compute; reflexivity).
  split; [exact Hdec|]. split; [reflexivity|].
  unfold run.
  rewrite (handler_runs_once (Json.dumps (to_dict demo_first)) demo_first
             (PStr (lit "hi")) (fun _ => raise (HandlerError 7))
             (AgentMessageQueue.__init__ demo_world (lit "roy")
                (Some (fun _ => raise (HandlerError 7))))
             demo_world Hdec eq_refl eq_refl).
  reflexivity.
Defined.

(** X12 (the callback of [subscribe_all_messages]).  For a payload that
    decodes, the callback given by the caller runs exactly once, on the
    decoded envelope; if it raises, the exception is logged and the
    subscription callback returns normally. *)
Theorem callback_runs_once (data : bytes) (m : Message)
  (callback : Message -> M World unit) (w : World) :
  decode data = Ok m ->
  MessageRouter.message_callback callback data w
  = match callback m w with
    | (Ok _, w1) => (Ok tt, w1)
    | (Raise e, w1) => (Ok tt, logged "Error in message callback" e w1)
    end.
Proof.
  intros Hdec.
  unfold MessageRouter.message_callback, try_except, bind, of_outcome.
  rewrite Hdec. destruct (callback m w) as [[[]|e] w1]; reflexivity.
Qed.

(** X12 with a callback that raises. *)
Lemma callback_runs_once_witness :
  decode (Json.dumps (to_dict demo_first)) = Ok demo_first
  /\ log (snd (MessageRouter.message_callback
                 (fun _ => raise (HandlerError 7))
                 (Json.dumps (to_dict demo_first)) demo_world))
     = [Error "Error in message callback" (Some (HandlerError 7))].
Proof.
  assert (Hdec : decode (Json.dumps (to_dict demo_first)) = Ok demo_first)
    by (vm_compute; reflexivity).
  split; [exact Hdec|].
  rewrite (callback_runs_once (Json.dumps (to_dict demo_first)) demo_first
             (fun _ => raise (HandlerError 7)) demo_world Hdec).
  reflexivity.
Defined.

Section PatternFacts.

Lemma split_dots_nonempty (s : str) : split_dots s <> [].
Proof.
  destruct s as [|c t]; [discriminate|]. simpl.
  destruct (c =? 46); [discriminate|].
  destruct (split_dots t); discriminate.
Qed.

Lemma split_dots_app (a b : str) :
  split_dots (a ++ 46 :: b) = split_dots a ++ split_dots b.
Proof.
  induction a as [|c a IH]; [reflexivity|].
  cbn [app split_dots]. rewrite IH.
  destruct (c =? 46); [reflexivity|].
  pose proof (split_dots_nonempty a) as Hne.
  destruct (split_dots a) as [|tok toks]; [congruence | reflexivity].
Qed.

(** Two patterns with a common beginning match a common subject only if
    their ends do. *)
Lemma match_tokens_common (T P1 P2 : list str) :
  P1 <> [] -> P2 <> [] ->
  (forall S, match_tokens P1 S = true -> match_tokens P2 S = true -> False) ->
  forall S,
    match_tokens (T ++ P1) S = true -> match_tokens (T ++ P2) S = true ->
    False.
Proof.
  intros H1 H2 Hends. induction T as [|p T IH]; intros S M1 M2.
  - exact (Hends S M1 M2).
  - cbn [app match_tokens] in M1, M2.
    destruct (str_eqb p (lit ">")).
    + destruct (T ++ P1) eqn:E; [|discriminate M1].
      apply app_eq_nil in E. destruct E; contradiction.
    + destruct S as [|s S]; [discriminate M1|].
      apply andb_true_iff in M1, M2.
      exact (IH S (proj2 M1) (proj2 M2)).
Qed.

Lemma literal_token (a b s : str) :
  str_eqb a (lit "*") = false ->
  (str_eqb a (lit "*") || str_eqb a s) = true ->
  (str_eqb b (lit "*") || str_eqb b s) = true ->
  str_eqb b (lit "*") = false ->
  a = b.
Proof.
  intros Ha Has Hbs Hb. rewrite Ha in Has. rewrite Hb in Hbs.
  cbn [orb] in *. apply str_eqb_eq in Has, Hbs. congruence.
Qed.

End PatternFacts.

Lemma viewer_patterns_clash (ns subj : str) :
  subject_matches (ns ++ lit ".messages.>") subj
  && subject_matches (ns ++ lit ".agents.*.inbox") subj = false
  /\ subject_matches (ns ++ lit ".messages.>") subj
     && subject_matches (ns ++ lit ".agents.*.outbox") subj = false
  /\ subject_matches (ns ++ lit ".agents.*.inbox") subj
     && subject_matches (ns ++ lit ".agents.*.outbox") subj = false.
Proof.
  unfold subject_matches.
  change (ns ++ lit ".messages.>") with (ns ++ 46 :: lit "messages.>").
  change (ns ++ lit ".agents.*.inbox") with (ns ++ 46 :: lit "agents.*.inbox").
  change (ns ++ lit ".agents.*.outbox")
    with (ns ++ 46 :: lit "agents.*.outbox").
  rewrite !split_dots_app.
  change (split_dots (lit "messages.>")) with [lit "messages"; lit ">"].
  change (split_dots (lit "agents.*.inbox"))
    with [lit "agents"; lit "*"; lit "inbox"].
  change (split_dots (lit "agents.*.outbox"))
    with [lit "agents"; lit "*"; lit "outbox"].
  set (S := split_dots subj). set (T := split_dots ns).
  assert (H12 : match_tokens (T ++ [lit "messages"; lit ">"]) S = true ->
                match_tokens (T ++ [lit "agents"; lit "*"; lit "inbox"]) S
                = true -> False).
  { apply match_tokens_common; try discriminate.
    intros [|s S'] M1 M2; [discriminate M1|].
    cbn [match_tokens] in M1, M2.
    change (str_eqb (lit "messages") (lit ">")) with false in M1.
    change (str_eqb (lit "agents") (lit ">")) with false in M2.
    cbv iota in M1, M2.
    apply andb_true_iff in M1, M2. destruct M1 as [M1 _], M2 as [M2 _].
    assert (E : lit "messages" = lit "agents")
      by (apply (literal_token _ _ s); auto).
    discriminate E. }
  assert (H13 : match_tokens (T ++ [lit "messages"; lit ">"]) S = true ->
                match_tokens (T ++ [lit "agents"; lit "*"; lit "outbox"]) S
                = true -> False).
  { apply match_tokens_common; try discriminate.
    intros [|s S'] M1 M2; [discriminate M1|].
    cbn [match_tokens] in M1, M2.
    change (str_eqb (lit "messages") (lit ">")) with false in M1.
    change (str_eqb (lit "agents") (lit ">")) with false in M2.
    cbv iota in M1, M2.
    apply andb_true_iff in M1, M2. destruct M1 as [M1 _], M2 as [M2 _].
    assert (E : lit "messages" = lit "agents")
      by (apply (literal_token _ _ s); auto).
    discriminate E. }
  assert (H23 : match_tokens (T ++ [lit "agents"; lit "*"; lit "inbox"]) S
                = true ->
                match_tokens (T ++ [lit "agents"; lit "*"; lit "outbox"]) S
                = true -> False).
  { apply match_tokens_common; try discriminate.
    intros [|s1 [|s2 [|s3 S']]] M1 M2;
      cbn [match_tokens] in M1, M2;
      change (str_eqb (lit "agents") (lit ">")) with false in M1, M2;
      change (str_eqb (lit "*") (lit ">")) with false in M1, M2;
      change (str_eqb (lit "inbox") (lit ">")) with false in M1;
      change (str_eqb (lit "outbox") (lit ">")) with false in M2;
      cbv iota in M1, M2;
      rewrite ?andb_false_r in M1; try discriminate M1.
    apply andb_true_iff in M1, M2.
    destruct M1 as [_ M1], M2 as [_ M2].
    apply andb_true_iff in M1, M2.
    destruct M1 as [_ M1], M2 as [_ M2].
    apply andb_true_iff in M1, M2. destruct M1 as [M1 _], M2 as [M2 _].
    assert (E : lit "inbox" = lit "outbox")
      by (apply (literal_token _ _ s3); auto).
    discriminate E. }
  destruct (match_tokens (T ++ [lit "messages"; lit ">"]) S) eqn:E1,
           (match_tokens (T ++ [lit "agents"; lit "*"; lit "inbox"]) S) eqn:E2,
           (match_tokens (T ++ [lit "agents"; lit "*"; lit "outbox"]) S) eqn:E3;
    repeat split; try reflexivity; exfalso; auto.
Qed.

(** X13 (the patterns of the viewer exclude each other).  Whatever the
    namespace, no subject matches two of the three patterns of
    [start_viewing]: the broker hands one publication to the viewer at
    most once.  (What the viewer sees twice was published twice.) *)
Theorem viewer_patterns_exclusive (ns subj : str) (payload : bytes) :
  (length (filter (fun p => subject_matches p subj) (viewer_patterns ns))
   <= 1)%nat
  /\ (length (delivered is_viewer
                        (map (fun p => (p, ViewerFeed)) (viewer_patterns ns))
                        [(subj, payload)])
      <= 1)%nat.
Proof.
  destruct (viewer_patterns_clash ns subj) as (H12 & H13 & H23).
  unfold viewer_patterns, delivered.
  cbn [filter map flat_map fst snd is_viewer andb app].
  destruct (subject_matches (ns ++ lit ".messages.>") subj),
           (subject_matches (ns ++ lit ".agents.*.inbox") subj),
           (subject_matches (ns ++ lit ".agents.*.outbox") subj);
    try discriminate; cbn [length app]; split; lia.
Qed.

(** ** Queries of the viewer *)

(** X15 ([get_agent_messages]).  Every envelope returned has the string
    ["agent_" ++ agent_name] as sender or as recipient; the result is
    the accumulator with envelopes left out, the others in arrival
    order; and every accumulated envelope that involves the agent is in
    the result. *)
Theorem agent_messages_filter (self : MessageViewer.t) (agent_name : str) :
  Forall (involves agent_name)
         (MessageViewer.get_agent_messages self agent_name)
  /\ subseq (MessageViewer.get_agent_messages self agent_name)
            (MessageViewer.get_all_messages self)
  /\ (forall msg : Message,
        In msg (MessageViewer.get_all_messages self) ->
        involves agent_name msg ->
        In msg (MessageViewer.get_agent_messages self agent_name)).
Proof.
  unfold MessageViewer.get_agent_messages, MessageViewer.get_all_messages,
    involves.
  repeat split.
  - apply Forall_forall. intros msg Hin. apply filter_In in Hin.
    destruct Hin as [_ Hin]. apply orb_true_iff in Hin.
    rewrite !eq_str_eq in Hin. exact Hin.
  - apply subseq_filter.
  - intros msg Hin Hinv. apply filter_In. split; [exact Hin|].
    apply orb_true_iff. rewrite !eq_str_eq. exact Hinv.
Qed.

(** ** The envelope *)

(** X16 ([from_dict]).  [from_dict] raises nothing but [TypeError], and
    raises it exactly when the data is no dict, has a key that is no
    field of [Message], or lacks one of the five fields without default.
    Otherwise the envelope takes the values of the dict as they are,
    with ["dm"] as [message_type] and [None] as [thread_id] when absent. *)
Theorem from_dict_checks_keys (data : pyval) :
  match from_dict data with
  | Ok m =>
      exists d : list (str * pyval),
        data = PDict d
        /\ Forall (fun kv => In (fst kv) field_names) d
        /\ lookup (lit "id") d = Some (id m)
        /\ lookup (lit "from_user") d = Some (from_user m)
        /\ lookup (lit "to_user") d = Some (to_user m)
        /\ lookup (lit "content") d = Some (content m)
        /\ lookup (lit "timestamp") d = Some (timestamp m)
        /\ message_type m
           = match lookup (lit "message_type") d with
             | Some k => k
             | None => PStr (lit "dm")
             end
        /\ thread_id m
           = match lookup (lit "thread_id") d with
             | Some th => th
             | None => PNone
             end
  | Raise e =>
      e = TypeError
      /\ forall d : list (str * pyval),
           data = PDict d ->
           Exists (fun kv => ~ In (fst kv) field_names) d
           \/ Exists (fun k => lookup k d = None)
                     [lit "id"; lit "from_user"; lit "to_user"; lit "content";
                      lit "timestamp"]
  end.
Proof.
  assert (Hin : forall k, existsb (str_eqb k) field_names = true
                          <-> In k field_names).
  { intros k. rewrite existsb_exists. split.
    - intros (x & Hx & E). apply str_eqb_eq in E. subst. exact Hx.
    - intros H. exists k. split; [exact H | apply str_eqb_refl]. }
  destruct data as [| | | | |l|d]; try (split; [reflexivity | discriminate]).
  unfold from_dict.
  destruct (forallb _ d) eqn:Hkeys.
  - destruct (lookup (lit "id") d) as [i|] eqn:E1;
      [|split; [reflexivity|];
        intros d' Hd; injection Hd as <-; right;
        apply Exists_cons_hd; exact E1].
    destruct (lookup (lit "from_user") d) as [f|] eqn:E2;
      [|split; [reflexivity|];
        intros d' Hd; injection Hd as <-; right;
        apply Exists_cons_tl, Exists_cons_hd; exact E2].
    destruct (lookup (lit "to_user") d) as [t|] eqn:E3;
      [|split; [reflexivity|];
        intros d' Hd; injection Hd as <-; right;
        do 2 apply Exists_cons_tl; apply Exists_cons_hd; exact E3].
    destruct (lookup (lit "content") d) as [c|] eqn:E4;
      [|split; [reflexivity|];
        intros d' Hd; injection Hd as <-; right;
        do 3 apply Exists_cons_tl; apply Exists_cons_hd; exact E4].
    destruct (lookup (lit "timestamp") d) as [ts|] eqn:E5;
      [|split; [reflexivity|];
        intros d' Hd; injection Hd as <-; right;
        do 4 apply Exists_cons_tl; apply Exists_cons_hd; exact E5].
    exists d. repeat split; try reflexivity; try assumption.
    rewrite forallb_forall in Hkeys. apply Forall_forall.
    intros kv Hkv. apply Hin, Hkeys, Hkv.
  - split; [reflexivity|]. intros d' Hd. injection Hd as <-. left.
    apply Exists_exists.
    assert (Hnot : forallb (fun kv => existsb (str_eqb (fst kv)) field_names) d
                   <> true) by congruence.
    rewrite forallb_forall in Hnot.
    destruct (Exists_dec (fun kv : str * pyval => ~ In (fst kv) field_names) d)
      as [Hex | Hnex].
    + intros kv. destruct (existsb (str_eqb (fst kv)) field_names) eqn:E.
      * right. intros Hc. apply Hc, Hin, E.
      * left. intros Hc. apply Hin in Hc. congruence.
    + apply Exists_exists in Hex. exact Hex.
    + exfalso. apply Hnot. intros kv Hkv.
      destruct (existsb (str_eqb (fst kv)) field_names) eqn:E; [reflexivity|].
      exfalso. apply Hnex. apply Exists_exists. exists kv. split; [exact Hkv|].
      intros Hc. apply Hin in Hc. congruence.
Qed.

(** ** Replies *)

(** X17 (the default handler).  On an envelope with text content [c]
    from the sender [F] and a thread id that is [None] or text, a
    connected processor [P] (the next two publishes not failing) sends
    exactly one reply, published to the destination of [F] and to its
    own outbox: from ["agent_" ++ P], to [F], with the thread id of the
    envelope, and with content ["Agent P received your message: '"]
    followed by the first 50 characters of [c] and ["...'"]. *)
Theorem default_handler_replies (self : AgentMessageQueue.t) (w : World)
  (msg : Message) (F c : str) :
  AgentMessageQueue.nc self <> None ->
  no_fault 2 w ->
  from_user msg = PStr F ->
  content msg = PStr c ->
  textual (thread_id msg) ->
  exists (reply : Message) (payload : bytes) (w' : World),
    AgentMessageQueue.default_message_handler msg (self, w)
    = (Ok tt, (self, w'))
    /\ from_user reply
       = PStr (lit "agent_" ++ AgentMessageQueue.agent_name self)
    /\ to_user reply = PStr F
    /\ content reply
       = PStr (lit "Agent " ++ AgentMessageQueue.agent_name self
               ++ lit " received your message: '" ++ firstn 50 c
               ++ lit "...'")
    /\ thread_id reply = thread_id msg
    /\ encode reply = Ok payload
    /\ new_publications w w'
       = [(if startswith (lit "agent_") F
           then NATS_NAMESPACE w ++ lit ".agents."
                ++ replace (lit "agent_") [] F ++ lit ".inbox"
           else NATS_NAMESPACE w ++ lit ".messages.dm." ++ F,
           payload);
          (AgentMessageQueue.outbox_subject self, payload)].
Proof.
  intros Hnc Hfault Hfrom Hcontent Hth.
  destruct msg as [i f t cc s k th].
  cbn [from_user content thread_id] in *. subst f cc.
  set (reply :=
         mkMessage (PStr (lit "msg_" ++ posix (clock w (ticks w))))
                   (PStr (lit "agent_" ++ AgentMessageQueue.agent_name self))
                   (PStr F)
                   (PStr (lit "Agent " ++ AgentMessageQueue.agent_name self
                          ++ lit " received your message: '"
                          ++ firstn 50 c ++ lit "...'"))
                   (PStr (iso (clock w (S (ticks w)))))
                   (PStr (lit "dm")) th).
  assert (Henc : encode reply = Ok (Json.dumps (to_dict reply)))
    by (apply encode_textual, textual_reply; exact Hth).
  exists reply, (Json.dumps (to_dict reply)).
  enough (Hpubs :
    exists w',
      AgentMessageQueue.default_message_handler
        (mkMessage i (PStr F) t (PStr c) s k th) (self, w)
      = (Ok tt, (self, w'))
      /\ published w'
         = published w
           ++ [(if startswith (lit "agent_") F
                then NATS_NAMESPACE w ++ lit ".agents."
                     ++ replace (lit "agent_") [] F ++ lit ".inbox"
                else NATS_NAMESPACE w ++ lit ".messages.dm." ++ F,
                Json.dumps (to_dict reply));
               (AgentMessageQueue.outbox_subject self,
                Json.dumps (to_dict reply))]).
  { destruct Hpubs as (w' & Hrun & Hpub).
    apply new_publications_app in Hpub.
    exists w'. repeat split; try assumption; reflexivity. }
  subst reply. revert Henc.
  destruct self as [name inbox outbox handler [conn|] sub];
    [clear Hnc | exfalso; apply Hnc; reflexivity].
  destruct w as [ns repr avail up fs pub subs clk tk lg out].
  apply no_fault_cases in Hfault. cbn [faults] in Hfault.
  cbn [clock ticks NATS_NAMESPACE published AgentMessageQueue.agent_name
       AgentMessageQueue.outbox_subject].
  intros Henc.
  destruct Hfault as [-> | [-> | [rest ->]]];
    destruct (startswith (lit "agent_") F) eqn:Hpre;
    exec_agent; rewrite ?Hpre; exec_agent; rewrite !Henc; exec_agent;
    eexists; (split; [reflexivity|]);
    rewrite <- app_assoc; reflexivity.
Qed.

(** X17 for roy. *)
Lemma default_handler_replies_witness :
  AgentMessageQueue.nc demo_roy <> None
  /\ no_fault 2 demo_listening
  /\ from_user demo_first = PStr (lit "agent_roy")
  /\ content demo_first = PStr (lit "hi")
  /\ textual (thread_id demo_first)
  /\ exists (reply : Message) (payload : bytes) (w' : World),
       AgentMessageQueue.default_message_handler demo_first
         (demo_roy, demo_listening)
       = (Ok tt, (demo_roy, w'))
       /\ to_user reply = PStr (lit "agent_roy")
       /\ content reply
          = PStr (lit "Agent roy received your message: 'hi...'")
       /\ encode reply = Ok payload
       /\ map fst (new_publications demo_listening w')
          = [lit "themultiverse.agents.roy.inbox";
             lit "themultiverse.agents.roy.outbox"].
Proof.
  assert (Hnc : AgentMessageQueue.nc demo_roy <> None) by discriminate.
  assert (Hf : no_fault 2 demo_listening) by (vm_compute; constructor).
  repeat (split; [first [exact Hnc | exact Hf | reflexivity | exact I]|]).
  destruct (default_handler_replies demo_roy demo_listening demo_first
              (lit "agent_roy") (lit "hi") Hnc Hf eq_refl eq_refl I)
    as (reply & payload & w' & Hrun & _ & Hto & Hc & _ & Henc & Hp).
  exists reply, payload, w'. repeat split; try assumption.
  rewrite Hp. reflexivity.
Defined.

(** X18 ([send_message] to what is no text).  When the recipient is not
    a [str], a connected processor raises [AttributeError] (at
    [startswith]) after the envelope was built: the clock was read twice,
    and nothing was published or logged. *)
Theorem send_message_needs_text (self : AgentMessageQueue.t) (w : World)
  (to : pyval) (text : str) (thread : pyval) :
  AgentMessageQueue.nc self <> None ->
  no_text to ->
  AgentMessageQueue.send_message to text thread (self, w)
  = (Raise AttributeError, (self, with_ticks (S (S (ticks w))) w)).
Proof.
  intros Hnc Hto.
  destruct self as [name inbox outbox handler [conn|] sub];
    [clear Hnc | exfalso; apply Hnc; reflexivity].
  destruct w as [ns repr avail up fs pub subs clk tk lg out].
  unfold AgentMessageQueue.send_message.
  destruct to; try contradiction; reflexivity.
Qed.

(** X18 for the recipient [None]. *)
Lemma send_message_needs_text_witness :
  AgentMessageQueue.nc demo_roy <> None
  /\ no_text PNone
  /\ published
       (snd (run (AgentMessageQueue.send_message PNone (lit "hi") PNone)
                 (demo_roy, demo_listening)))
     = [].
Proof.
  assert (Hnc : AgentMessageQueue.nc demo_roy <> None) by discriminate.
  split; [exact Hnc|]. split; [exact I|].
  unfold run.
  rewrite (send_message_needs_text demo_roy demo_listening PNone (lit "hi")
             PNone Hnc I).
  reflexivity.
Defined.

(** X19 (no reply without a textual sender).  When a payload decodes to
    an envelope with text content whose sender is not a [str] (which
    [from_dict] lets through), the inbox callback with the default
    handler returns normally, publishes nothing, and the last thing
    logged is the [AttributeError]. *)
Theorem reply_needs_text_sender (data : bytes) (m : Message) (c : str)
  (self : AgentMessageQueue.t) (w : World) :
  decode data = Ok m ->
  content m = PStr c ->
  no_text (from_user m) ->
  AgentMessageQueue.message_handler self = AgentMessageQueue.default_handler ->
  AgentMessageQueue.nc self <> None ->
  exists w' : World,
    AgentMessageQueue.message_callback data (self, w) = (Ok tt, (self, w'))
    /\ published w' = published w
    /\ exists before : list log_record,
         log w' = before
                  ++ [Error "Error processing message" (Some AttributeError)].
Proof.
  intros Hdec Hc Hfrom Hh Hnc.
  destruct m as [i f t cc s k th]. cbn [content from_user] in *. subst cc.
  destruct self as [name inbox outbox handler [conn|] sub];
    [clear Hnc | exfalso; apply Hnc; reflexivity].
  cbn [AgentMessageQueue.message_handler] in Hh. subst handler.
  destruct w as [ns repr avail up fs pub subs clk tk lg out].
  exec_agent. rewrite Hdec. exec_agent.
  destruct f; try contradiction; exec_agent;
    eexists; repeat split; eexists; reflexivity.
Qed.

(** X19 for the sender [null]. *)
Lemma reply_needs_text_sender_witness :
  let m := mkMessage (PStr (lit "1")) PNone (PStr (lit "agent_roy"))
                     (PStr (lit "hi")) (PStr (lit "now")) (PStr (lit "dm"))
                     PNone in
  decode (Json.dumps (to_dict m)) = Ok m
  /\ content m = PStr (lit "hi")
  /\ no_text (from_user m)
  /\ AgentMessageQueue.message_handler demo_roy
     = AgentMessageQueue.default_handler
  /\ AgentMessageQueue.nc demo_roy <> None
  /\ exists w' : World,
       AgentMessageQueue.message_callback (Json.dumps (to_dict m))
                                          (demo_roy, demo_listening)
       = (Ok tt, (demo_roy, w'))
       /\ published w' = published demo_listening.
Proof.
  cbv zeta.
  set (m := mkMessage (PStr (lit "1")) PNone (PStr (lit "agent_roy"))
                      (PStr (lit "hi")) (PStr (lit "now")) (PStr (lit "dm"))
                      PNone).
  assert (Hdec : decode (Json.dumps (to_dict m)) = Ok m)
    by (vm_compute; reflexivity).
  assert (Hnc : AgentMessageQueue.nc demo_roy <> None) by discriminate.
  repeat (split; [first [exact Hdec | exact Hnc | reflexivity | exact I]|]).
  destruct (reply_needs_text_sender (Json.dumps (to_dict m)) m (lit "hi")
              demo_roy demo_listening Hdec eq_refl I eq_refl Hnc)
    as (w' & Hrun & Hpub & _).
  exists w'. split; assumption.
Defined.

Lemma send_dm_publications (self : MessageRouter.t) (w : World)
  (H A C : str) :
  can_connect (MessageRouter.nc self) w ->
  no_fault 2 w ->
  let m := mkMessage (PStr (lit "msg_" ++ posix (clock w (ticks w))))
                     (PStr H) (PStr (lit "agent_" ++ A)) (PStr C)
                     (PStr (iso (clock w (S (ticks w)))))
                     (PStr (lit "dm")) PNone in
  exists (self' : MessageRouter.t) (w' : World),
    MessageRouter.send_dm H A C (self, w) = (Ok m, (self', w'))
    /\ published w'
       = published w
         ++ [(NATS_NAMESPACE w ++ lit ".agents." ++ A ++ lit ".inbox",
              Json.dumps (to_dict m));
             (NATS_NAMESPACE w ++ lit ".messages.all",
              Json.dumps (to_dict m))].
Proof.
  intros Hconn Hfault m.
  assert (Henc : encode m = Ok (Json.dumps (to_dict m)))
    by apply encode_textual, textual_dm.
  subst m. revert Henc.
  destruct self as [nc hist].
  destruct w as [ns repr avail up fs pub subs clk tk lg out].
  apply no_fault_cases in Hfault. cbn [faults] in Hfault.
  unfold can_connect in Hconn.
  cbn [MessageRouter.nc NATS_AVAILABLE broker_up] in Hconn.
  cbn [clock ticks NATS_NAMESPACE published]. intros Henc.
  unfold MessageRouter.send_dm.
  destruct nc as [c|].
  - destruct Hfault as [-> | [-> | [rest ->]]];
      exec; rewrite !Henc; exec;
      do 2 eexists; (split; [reflexivity|]); exec;
      rewrite <- app_assoc; reflexivity.
  - destruct Hconn as [Hc | [-> ->]]; [congruence|].
    destruct Hfault as [-> | [-> | [rest ->]]];
      exec; rewrite !Henc; exec;
      do 2 eexists; (split; [reflexivity|]); exec;
      rewrite <- app_assoc; reflexivity.
Qed.

Lemma dm_envelope_valid (w : World) (H A C : str) :
  valid_clock w -> valid_str H -> valid_str A -> valid_str C ->
  valid_envelope
    (mkMessage (PStr (lit "msg_" ++ posix (clock w (ticks w))))
               (PStr H) (PStr (lit "agent_" ++ A)) (PStr C)
               (PStr (iso (clock w (S (ticks w)))))
               (PStr (lit "dm")) PNone).
Proof.
  intros Hclock HH HA HC.
  constructor; cbn [id from_user to_user content timestamp message_type
                    thread_id valid_text valid_thread]; try assumption.
  - apply valid_str_app; [apply valid_strb_sound; reflexivity|].
    apply (Hclock (ticks w)).
  - apply valid_str_app; [apply valid_strb_sound; reflexivity | exact HA].
  - apply (Hclock (S (ticks w))).
  - left; reflexivity.
  - exact I.
Qed.

(** X4 (what [send_dm] publishes decodes to what it returns).  When the
    router is connected or can connect, its two publishes do not fail,
    and the human id, the agent id, the content and the readings of the
    clock are strings of Unicode scalar values, [send_dm] returns an
    envelope, that envelope is valid, and every payload the call
    published decodes, at a listener, to that envelope. *)
Theorem send_dm_payload_decodes (self : MessageRouter.t) (w : World)
  (H A C : str) :
  can_connect (MessageRouter.nc self) w ->
  no_fault 2 w ->
  valid_clock w ->
  valid_str H -> valid_str A -> valid_str C ->
  exists (m : Message) (s' : MessageRouter.t * World),
    MessageRouter.send_dm H A C (self, w) = (Ok m, s')
    /\ valid_envelope m
    /\ Forall (fun pub => decode (snd pub) = Ok m)
              (new_publications w (snd s')).
Proof.
  intros Hconn Hfault Hclock HH HA HC.
  destruct (send_dm_publications self w H A C Hconn Hfault)
    as (self' & w' & Hrun & Hpub).
  eexists _, (self', w'). split; [exact Hrun|].
  pose proof (dm_envelope_valid w H A C Hclock HH HA HC) as Hm.
  split; [exact Hm|].
  apply new_publications_app in Hpub. cbn [snd]. rewrite Hpub.
  repeat constructor; cbn [snd]; apply decode_dumps; exact Hm.
Qed.

(** X4 at the first DM of [demo]. *)
Lemma send_dm_payload_decodes_witness :
  can_connect (MessageRouter.nc MessageRouter.__init__) demo_world
  /\ no_fault 2 demo_world
  /\ valid_clock demo_world
  /\ valid_str (lit "alice") /\ valid_str (lit "sylvia")
  /\ valid_str (lit "hello")
  /\ exists (m : Message) (s' : MessageRouter.t * World),
       MessageRouter.send_dm (lit "alice") (lit "sylvia") (lit "hello")
                             (MessageRouter.__init__, demo_world)
       = (Ok m, s')
       /\ Forall (fun pub => decode (snd pub) = Ok m)
                 (new_publications demo_world (snd s')).
Proof.
  assert (Hc : can_connect (MessageRouter.nc MessageRouter.__init__) demo_world)
    by (right; split; reflexivity).
  assert (Hf : no_fault 2 demo_world) by (vm_compute; constructor).
  assert (Hclk : valid_clock demo_world) by exact demo_clock_valid.
  assert (H1 : valid_str (lit "alice"))
    by (apply valid_strb_sound; reflexivity).
  assert (H2 : valid_str (lit "sylvia"))
    by (apply valid_strb_sound; reflexivity).
  assert (H3 : valid_str (lit "hello"))
    by (apply valid_strb_sound; reflexivity).
  repeat (split; [assumption|]).
  destruct (send_dm_payload_decodes MessageRouter.__init__ demo_world
              (lit "alice") (lit "sylvia") (lit "hello") Hc Hf Hclk H1 H2 H3)
    as (m & s' & Hrun & _ & Hdec).
  exists m, s'. split; assumption.
Defined.

Section DeliveryFacts.

Lemma split_dots_dotless (s : str) : dotless s -> split_dots s = [s].
Proof.
  induction 1 as [|c s Hc _ IH]; [reflexivity|].
  cbn [split_dots]. rewrite IH.
  destruct (N.eqb_spec c 46); [contradiction | reflexivity].
Qed.

Lemma match_tokens_same_prefix (T P S : list str) :
  Forall (fun tok => tok <> lit ">") T ->
  match_tokens (T ++ P) (T ++ S) = match_tokens P S.
Proof.
  induction 1 as [|p T Hp _ IH]; [reflexivity|].
  cbn [app match_tokens].
  destruct (str_eqb p (lit ">")) eqn:E;
    [apply str_eqb_eq in E; contradiction|].
  rewrite str_eqb_refl, orb_true_r, IH. reflexivity.
Qed.

Lemma feed_matches (ns : str) :
  plain_namespace ns ->
  subject_matches (ns ++ lit ".messages.>") (ns ++ lit ".messages.all") = true.
Proof.
  intros Hns. unfold subject_matches.
  change (ns ++ lit ".messages.>") with (ns ++ 46 :: lit "messages.>").
  change (ns ++ lit ".messages.all") with (ns ++ 46 :: lit "messages.all").
  rewrite !split_dots_app, match_tokens_same_prefix by exact Hns.
  reflexivity.
Qed.

Lemma inbox_matches (ns A : str) :
  plain_namespace ns -> dotless A ->
  subject_matches (ns ++ lit ".agents.*.inbox")
                  (ns ++ lit ".agents." ++ A ++ lit ".inbox") = true.
Proof.
  intros Hns HA. unfold subject_matches.
  change (ns ++ lit ".agents.*.inbox") with (ns ++ 46 :: lit "agents.*.inbox").
  change (ns ++ lit ".agents." ++ A ++ lit ".inbox")
    with (ns ++ 46 :: (lit "agents" ++ 46 :: (A ++ 46 :: lit "inbox"))).
  rewrite !split_dots_app, match_tokens_same_prefix by exact Hns.
  rewrite (split_dots_dotless A HA).
  change (split_dots (lit "agents.*.inbox"))
    with [lit "agents"; lit "*"; lit "inbox"].
  change (split_dots (lit "agents")) with [lit "agents"].
  change (split_dots (lit "inbox")) with [lit "inbox"].
  cbn [app match_tokens].
  change (str_eqb (lit "agents") (lit ">")) with false.
  change (str_eqb (lit "*") (lit ">")) with false.
  change (str_eqb (lit "inbox") (lit ">")) with false.
  cbv iota. rewrite !str_eqb_refl. reflexivity.
Qed.

Lemma receive_all_appends (p : bool) (ds : list bytes)
  (self : MessageViewer.t) (w : World) :
  MessageViewer.messages (fst (run (receive_all p ds) (self, w)))
  = MessageViewer.messages self ++ decoded ds.
Proof.
  revert self w. induction ds as [|d ds IH]; intros self w.
  - unfold decoded. cbn. rewrite app_nil_r. reflexivity.
  - cbn [receive_all]. unfold run, bind.
    destruct (viewer_callback_appends p d self w) as [w' ->].
    fold (run (receive_all p ds)
              (MessageViewer.mk (MessageViewer.nc self)
                 (MessageViewer.messages self ++ decoded [d]), w')).
    rewrite IH. cbn [MessageViewer.messages].
    rewrite (decoded_cons d ds), app_assoc. reflexivity.
Qed.

End DeliveryFacts.

(** X14 (the viewer holds every DM twice).  In a world where the broker
    answers and no publish fails, without other subscriptions, with a
    namespace none of whose tokens is [>], an agent id free of dots, and
    ids, content and clock readings that are strings of Unicode scalar
    values: a fresh viewer starts, a fresh router sends the DM, the
    broker hands the viewer two deliveries of it (feed and inbox
    pattern) and, after its callback ran on both, the viewer holds the
    envelope twice. *)
Theorem viewer_holds_dm_twice (print_messages : bool) (w : World)
  (H A C : str) :
  NATS_AVAILABLE w = true -> broker_up w = true -> faults w = [] ->
  subscriptions w = [] ->
  valid_clock w -> valid_str H -> valid_str A -> valid_str C ->
  plain_namespace (NATS_NAMESPACE w) -> dotless A ->
  exists (viewer : MessageViewer.t) (w1 : World) (m : Message)
         (s2 : MessageRouter.t * World) (inbound : list bytes),
    MessageViewer.start_viewing print_messages (MessageViewer.__init__, w)
    = (Ok tt, (viewer, w1))
    /\ MessageRouter.send_dm H A C (MessageRouter.__init__, w1) = (Ok m, s2)
    /\ delivered is_viewer (subscriptions (snd s2))
                 (new_publications w1 (snd s2)) = inbound
    /\ length inbound = 2%nat
    /\ MessageViewer.get_all_messages
         (fst (run (receive_all print_messages inbound) (viewer, snd s2)))
       = [m; m].
Proof.
  intros Havail Hup Hfaults Hsubs Hclock HH HA HC Hns Hdot.
  assert (Hview : exists (viewer : MessageViewer.t) (w1 : World),
             MessageViewer.start_viewing print_messages
               (MessageViewer.__init__, w) = (Ok tt, (viewer, w1))
             /\ subscriptions w1
                = map (fun p => (p, ViewerFeed))
                      (viewer_patterns (NATS_NAMESPACE w))
             /\ MessageViewer.messages viewer = []
             /\ NATS_NAMESPACE w1 = NATS_NAMESPACE w
             /\ faults w1 = [] /\ clock w1 = clock w
             /\ NATS_AVAILABLE w1 = true /\ broker_up w1 = true).
  { clear - Havail Hup Hfaults Hsubs.
    destruct w as [ns repr avail up fs pub subs clk tk lg out].
    cbn [NATS_AVAILABLE broker_up faults subscriptions NATS_NAMESPACE clock]
      in *.
    subst.
    unfold MessageViewer.start_viewing, MessageViewer.__init__,
      viewer_patterns.
    exec. do 2 eexists. repeat split; reflexivity. }
  destruct Hview
    as (viewer & w1 & Hstart & Hsubs1 & Hmsgs & Hns1 & Hf1 & Hclk1 & Hav1 & Hup1).
  assert (Hclock1 : valid_clock w1)
    by (unfold valid_clock; rewrite Hclk1; exact Hclock).
  assert (Hnf : no_fault 2 w1) by (unfold no_fault; rewrite Hf1; constructor).
  destruct (send_dm_publications MessageRouter.__init__ w1 H A C
              (or_intror (conj Hav1 Hup1)) Hnf)
    as (r' & w2 & Hsend & Hpub2).
  pose proof (dm_envelope_valid w1 H A C Hclock1 HH HA HC) as Hm.
  assert (Hsubs2 : subscriptions w2 = subscriptions w1).
  { revert Hsend. clear - Hav1 Hup1 Hf1.
    destruct w1 as [ns repr avail up fs pub subs clk tk lg out].
    cbn [NATS_AVAILABLE broker_up faults] in *. subst.
    unfold MessageRouter.send_dm, MessageRouter.__init__. exec.
    rewrite !encode_textual by apply textual_dm. exec.
    intros E.
    apply (f_equal (fun x => subscriptions (snd (snd x)))) in E.
    cbn [snd subscriptions] in E. symmetry. exact E. }
  apply new_publications_app in Hpub2.
  eexists viewer, w1, _, (r', w2), _.
  split; [exact Hstart|]. split; [exact Hsend|].
  split; [reflexivity|]. cbn [snd].
  rewrite Hsubs2, Hsubs1, Hpub2, Hns1.
  pose proof (viewer_patterns_clash (NATS_NAMESPACE w)
                (NATS_NAMESPACE w ++ lit ".messages.all")) as (F12 & F13 & _).
  pose proof (viewer_patterns_clash (NATS_NAMESPACE w)
                (NATS_NAMESPACE w ++ lit ".agents." ++ A ++ lit ".inbox"))
    as (I12 & _ & I23).
  rewrite (feed_matches _ Hns) in F12, F13.
  rewrite (inbox_matches _ A Hns Hdot) in I12, I23.
  cbn [andb] in F12, F13, I23. rewrite andb_true_r in I12.
  unfold viewer_patterns, delivered.
  cbn [map flat_map fst snd is_viewer andb app].
  rewrite (feed_matches _ Hns), (inbox_matches _ A Hns Hdot).
  rewrite F12, F13, I12, I23. cbn [app].
  split; [reflexivity|].
  unfold MessageViewer.get_all_messages.
  rewrite receive_all_appends, Hmsgs.
  cbn [app].
  unfold decoded. cbn [flat_map].
  rewrite (decode_dumps _ Hm). reflexivity.
Qed.

(** X14 at the first DM of [demo]. *)
Lemma viewer_holds_dm_twice_witness :
  NATS_AVAILABLE demo_world = true /\ broker_up demo_world = true
  /\ faults demo_world = [] /\ subscriptions demo_world = []
  /\ valid_clock demo_world
  /\ valid_str (lit "alice") /\ valid_str (lit "sylvia")
  /\ valid_str (lit "hello")
  /\ plain_namespace (NATS_NAMESPACE demo_world) /\ dotless (lit "sylvia")
  /\ exists (viewer : MessageViewer.t) (w1 : World) (m : Message)
            (s2 : MessageRouter.t * World) (inbound : list bytes),
       MessageViewer.start_viewing false (MessageViewer.__init__, demo_world)
       = (Ok tt, (viewer, w1))
       /\ MessageRouter.send_dm (lit "alice") (lit "sylvia") (lit "hello")
                                (MessageRouter.__init__, w1) = (Ok m, s2)
       /\ length inbound = 2%nat
       /\ MessageViewer.get_all_messages
            (fst (run (receive_all false inbound) (viewer, snd s2)))
          = [m; m].
Proof.
  assert (Hclk : valid_clock demo_world) by exact demo_clock_valid.
  assert (H1 : valid_str (lit "alice"))
    by (apply valid_strb_sound; reflexivity).
  assert (H2 : valid_str (lit "sylvia"))
    by (apply valid_strb_sound; reflexivity).
  assert (H3 : valid_str (lit "hello"))
    by (apply valid_strb_sound; reflexivity).
  assert (Hns : plain_namespace (NATS_NAMESPACE demo_world))
    by (repeat constructor; discriminate).
  assert (Hdot : dotless (lit "sylvia"))
    by (repeat constructor; discriminate).
  repeat (split; [first [reflexivity | assumption]|]).
  destruct (viewer_holds_dm_twice false demo_world (lit "alice")
              (lit "sylvia") (lit "hello") eq_refl eq_refl eq_refl eq_refl
              Hclk H1 H2 H3 Hns Hdot)
    as (viewer & w1 & m & s2 & inbound & Hstart & Hsend & _ & Hlen & Hall).
  exists viewer, w1, m, s2, inbound. repeat split; assumption.
Defined.
